(** * Speech-to-summary: the session state machine of [src/App.tsx]

    A shallow embedding of the React component [App]: its five state slots,
    the recognition object kept in [recognitionRef], the closure variable
    [finalTranscript] of the mount effect, and the handlers
    [recognition.onresult], [recognition.onerror], [recognition.onend],
    [toggleListening], [copyToClipboard], [clearTranscript] and
    [summarizeTranscript].

    JavaScript strings are sequences of UTF-16 code units, modelled as
    [list N].  The asynchronous [summarizeTranscript] is split at its single
    [await]: the part that runs up to [axios.post], and the continuation that
    runs when the request settles. *)

From Stdlib Require Import NArith QArith Lia.
From stdpp Require Import base option list strings.
From Equations Require Import Equations.
From Equations.Prop Require Import Logic.

Local Open Scope nat_scope.
Local Open Scope list_scope.
Set Warnings "-register-all".

(** ** JavaScript values used by the component *)

Module JS.

(** A string is a list of UTF-16 code units. *)
Abbreviation jsstring := (list N) (only parsing).

(** A source-code string literal, one code unit per character. *)
Definition js (s : string) : jsstring :=
  map Ascii.N_of_ascii (String.list_ascii_of_string s).

(** ECMAScript [WhiteSpace] and [LineTerminator] code points; all of them
    lie in the basic plane, so each is one code unit. *)
Definition is_white_space (c : N) : bool :=
  ((c =? 9) || (c =? 10) || (c =? 11) || (c =? 12) || (c =? 13) ||
   (c =? 32) || (c =? 160) || (c =? 5760) ||
   ((8192 <=? c) && (c <=? 8202)) ||
   (c =? 8232) || (c =? 8233) || (c =? 8239) || (c =? 8287) ||
   (c =? 12288) || (c =? 65279))%N.

Fixpoint trimStart (s : jsstring) : jsstring :=
  match s with
  | [] => []
  | c :: s' => if is_white_space c then trimStart s' else s
  end.

Definition trimEnd (s : jsstring) : jsstring :=
  reverse (trimStart (reverse s)).

(** [String.prototype.trim] *)
Definition trim (s : jsstring) : jsstring := trimEnd (trimStart s).

(** The values a parsed response body can hold, plus [undefined], which
    property reads produce. *)
Inductive value : Type :=
| VUndefined
| VNull
| VBool (b : bool)
| VNumber (q : Q)
| VString (s : jsstring)
| VArray (elements : list value)
| VObject (fields : list (jsstring * value)).

(** What a [catch] clause can receive in this component. *)
Inductive exn : Type :=
| TypeError
| AxiosNetworkError (message : jsstring)
| AxiosBadStatus (status : nat) (body : value).

(** Evaluation either yields a value or throws. *)
Inductive completion (A : Type) : Type :=
| Normal (a : A)
| Throw (e : exn).
Arguments Normal {A} a.
Arguments Throw {A} e.

#[export] Instance completion_ret : MRet completion := @Normal.

#[export] Instance completion_bind : MBind completion :=
  fun A B (k : A -> completion B) (c : completion A) =>
    match c with
    | Normal a => k a
    | Throw e => Throw e
    end.

Fixpoint own_property (k : jsstring) (fields : list (jsstring * value))
  : option value :=
  match fields with
  | [] => None
  | (k', v) :: rest => if decide (k = k') then Some v else own_property k rest
  end.

(** [v.name] for a name that no built-in prototype defines (the component
    reads [choices] and [text]): reading from [undefined] or [null] throws,
    an object yields its own property, anything else yields [undefined]. *)
Definition get (v : value) (name : jsstring) : completion value :=
  match v with
  | VUndefined | VNull => Throw TypeError
  | VObject fields => Normal (default VUndefined (own_property name fields))
  | _ => Normal VUndefined
  end.

(** [v[0]] *)
Definition get0 (v : value) : completion value :=
  match v with
  | VUndefined | VNull => Throw TypeError
  | VArray elements => Normal (default VUndefined (head elements))
  | VString s =>
      Normal (match s with [] => VUndefined | c :: _ => VString [c] end)
  | VObject fields =>
      Normal (default VUndefined (own_property (js "0") fields))
  | _ => Normal VUndefined
  end.

(** [v.trim()]: only strings have a callable [trim]; a parsed body never
    holds a function, so every other receiver throws. *)
Definition call_trim (v : value) : completion jsstring :=
  match v with
  | VString s => Normal (trim s)
  | _ => Throw TypeError
  end.

(** [`${v}`] for an optional string: [undefined] prints as "undefined". *)
Definition template_hole (v : option jsstring) : jsstring :=
  match v with
  | Some s => s
  | None => js "undefined"
  end.

End JS.
Import JS.

(** ** The host's speech recognition interface *)

Module WebSpeech.

Record SpeechRecognitionAlternative : Type := {
  transcript : jsstring
}.

(** A result holds at least one alternative; [item0] is [result[0]]. *)
Record SpeechRecognitionResult : Type := {
  isFinal : bool;
  item0 : SpeechRecognitionAlternative;
  items : list SpeechRecognitionAlternative
}.

Record SpeechRecognitionEvent : Type := {
  resultIndex : nat;
  results : list SpeechRecognitionResult
}.

(** The configuration the mount effect writes on the recognition object. *)
Record SpeechRecognition : Type := {
  continuous : bool;
  interimResults : bool;
  lang : jsstring
}.

(** What a call of [recognition.start()] does. *)
Inductive start_result : Type := Started | StartThrows.

End WebSpeech.
Import WebSpeech.

(** ** The HTTP client *)

Module Axios.

Record request : Type := {
  url : jsstring;
  data : value;
  headers : list (jsstring * jsstring)
}.

(** How a request settles: without a response, or with a status and a
    parsed body. *)
Inductive settlement : Type :=
| NoResponse (message : jsstring)
| Response (status : nat) (body : value).

(** The client's default [validateStatus]. *)
Definition validateStatus (status : nat) : bool :=
  (200 <=? status) && (status <? 300).

(** [(await axios.post(...)).data] *)
Definition await_data (o : settlement) : completion value :=
  match o with
  | NoResponse message => Throw (AxiosNetworkError message)
  | Response status body =>
      if validateStatus status then Normal body
      else Throw (AxiosBadStatus status body)
  end.

End Axios.

(** ** The component *)

Record Host : Type := {
  hasSpeechRecognition : bool;
  hasWebkitSpeechRecognition : bool;
  VITE_OPENAI_API_KEY : option jsstring
}.

Inductive recognition_call : Type := CallStart | CallStop.

(** The state slots of [App] (lines 6-11), the closure variable
    [finalTranscript] (line 21), and what the handlers did to the outside:
    calls on the recognition object, requests not yet settled, the console
    and the clipboard. *)
Record App : Type := {
  isListening : bool;
  transcript : jsstring;
  summary : jsstring;
  isSummarizing : bool;
  recognitionRef : option SpeechRecognition;
  error : option jsstring;
  finalTranscript : jsstring;
  apiKey : option jsstring;
  recognitionCalls : list recognition_call;
  inflight : list Axios.request;
  console : list (jsstring * exn);
  clipboard : option jsstring
}.

Definition setIsListening (b : bool) (s : App) : App :=
  {| isListening := b; transcript := transcript s; summary := summary s;
     isSummarizing := isSummarizing s; recognitionRef := recognitionRef s;
     error := error s; finalTranscript := finalTranscript s;
     apiKey := apiKey s; recognitionCalls := recognitionCalls s;
     inflight := inflight s; console := console s;
     clipboard := clipboard s |}.

Definition setTranscript (t : jsstring) (s : App) : App :=
  {| isListening := isListening s; transcript := t; summary := summary s;
     isSummarizing := isSummarizing s; recognitionRef := recognitionRef s;
     error := error s; finalTranscript := finalTranscript s;
     apiKey := apiKey s; recognitionCalls := recognitionCalls s;
     inflight := inflight s; console := console s;
     clipboard := clipboard s |}.

Definition setSummary (t : jsstring) (s : App) : App :=
  {| isListening := isListening s; transcript := transcript s; summary := t;
     isSummarizing := isSummarizing s; recognitionRef := recognitionRef s;
     error := error s; finalTranscript := finalTranscript s;
     apiKey := apiKey s; recognitionCalls := recognitionCalls s;
     inflight := inflight s; console := console s;
     clipboard := clipboard s |}.

Definition setIsSummarizing (b : bool) (s : App) : App :=
  {| isListening := isListening s; transcript := transcript s;
     summary := summary s; isSummarizing := b;
     recognitionRef := recognitionRef s; error := error s;
     finalTranscript := finalTranscript s; apiKey := apiKey s;
     recognitionCalls := recognitionCalls s; inflight := inflight s;
     console := console s; clipboard := clipboard s |}.

Definition setRecognitionRef (r : option SpeechRecognition) (s : App) : App :=
  {| isListening := isListening s; transcript := transcript s;
     summary := summary s; isSummarizing := isSummarizing s;
     recognitionRef := r; error := error s;
     finalTranscript := finalTranscript s; apiKey := apiKey s;
     recognitionCalls := recognitionCalls s; inflight := inflight s;
     console := console s; clipboard := clipboard s |}.

Definition setError (e : option jsstring) (s : App) : App :=
  {| isListening := isListening s; transcript := transcript s;
     summary := summary s; isSummarizing := isSummarizing s;
     recognitionRef := recognitionRef s; error := e;
     finalTranscript := finalTranscript s; apiKey := apiKey s;
     recognitionCalls := recognitionCalls s; inflight := inflight s;
     console := console s; clipboard := clipboard s |}.

Definition setFinalTranscript (t : jsstring) (s : App) : App :=
  {| isListening := isListening s; transcript := transcript s;
     summary := summary s; isSummarizing := isSummarizing s;
     recognitionRef := recognitionRef s; error := error s;
     finalTranscript := t; apiKey := apiKey s;
     recognitionCalls := recognitionCalls s; inflight := inflight s;
     console := console s; clipboard := clipboard s |}.

Definition callRecognition (c : recognition_call) (s : App) : App :=
  {| isListening := isListening s; transcript := transcript s;
     summary := summary s; isSummarizing := isSummarizing s;
     recognitionRef := recognitionRef s; error := error s;
     finalTranscript := finalTranscript s; apiKey := apiKey s;
     recognitionCalls := recognitionCalls s ++ [c]; inflight := inflight s;
     console := console s; clipboard := clipboard s |}.

Definition setInflight (l : list Axios.request) (s : App) : App :=
  {| isListening := isListening s; transcript := transcript s;
     summary := summary s; isSummarizing := isSummarizing s;
     recognitionRef := recognitionRef s; error := error s;
     finalTranscript := finalTranscript s; apiKey := apiKey s;
     recognitionCalls := recognitionCalls s; inflight := l;
     console := console s; clipboard := clipboard s |}.

Definition consoleError (label : jsstring) (cause : exn) (s : App) : App :=
  {| isListening := isListening s; transcript := transcript s;
     summary := summary s; isSummarizing := isSummarizing s;
     recognitionRef := recognitionRef s; error := error s;
     finalTranscript := finalTranscript s; apiKey := apiKey s;
     recognitionCalls := recognitionCalls s; inflight := inflight s;
     console := console s ++ [(label, cause)]; clipboard := clipboard s |}.

Definition writeClipboard (t : jsstring) (s : App) : App :=
  {| isListening := isListening s; transcript := transcript s;
     summary := summary s; isSummarizing := isSummarizing s;
     recognitionRef := recognitionRef s; error := error s;
     finalTranscript := finalTranscript s; apiKey := apiKey s;
     recognitionCalls := recognitionCalls s; inflight := inflight s;
     console := console s; clipboard := Some t |}.

(** *** The user-facing messages (lines 36, 46, 59, 75 and 102) *)

Definition unsupported_message : jsstring :=
  js "Your browser doesn't support speech recognition. Please try using Chrome or Edge.".

Definition start_failed_message : jsstring :=
  js "Couldn't start speech recognition. Please try again.".

Definition nothing_to_summarize_message : jsstring :=
  js "There's no text to summarize. Please transcribe some speech first.".

Definition summary_failed_message : jsstring :=
  js "Failed to generate summary. Please try again.".

Definition recognition_error_message (code : jsstring) : jsstring :=
  js "Speech recognition error: " ++ code.

(** *** Mounting (lines 6-11 and the effect of lines 13-48) *)

Definition initial (h : Host) : App :=
  {| isListening := false; transcript := []; summary := [];
     isSummarizing := false; recognitionRef := None; error := None;
     finalTranscript := []; apiKey := VITE_OPENAI_API_KEY h;
     recognitionCalls := []; inflight := []; console := [];
     clipboard := None |}.

Definition mountEffect (h : Host) (s : App) : App :=
  if hasSpeechRecognition h || hasWebkitSpeechRecognition h then
    let recognition :=
      {| continuous := true; interimResults := true; lang := js "en-US" |} in
    setRecognitionRef (Some recognition) (setFinalTranscript [] s)
  else
    setError (Some unsupported_message) s.

Definition mount (h : Host) : App := mountEffect h (initial h).

(** *** [recognition.onresult] (lines 23-33) *)

(** The loop of lines 25-31 from index [i] on; [rs !! i] is defined exactly
    when [i < rs.length]. *)
Equations? onresult_loop (rs : list SpeechRecognitionResult) (i : nat)
    (finalT interimT : jsstring) : jsstring * jsstring
    by wf (length rs - i) lt :=
  onresult_loop rs i finalT interimT with inspect (rs !! i) := {
    | exist _ (Some r) Hi =>
        if isFinal r then
          onresult_loop rs (S i)
            (finalT ++ (WebSpeech.transcript (item0 r) ++ js " ")) interimT
        else
          onresult_loop rs (S i)
            finalT (interimT ++ WebSpeech.transcript (item0 r))
    | exist _ None Hi => (finalT, interimT)
  }.
Proof.
  all: apply lookup_lt_Some in Hi; lia.
Qed.

Definition onresult (event : SpeechRecognitionEvent) (s : App) : App :=
  let '(finalT, interimT) :=
    onresult_loop (results event) (resultIndex event) (finalTranscript s) []
  in
  setTranscript (finalT ++ interimT) (setFinalTranscript finalT s).

(** *** [recognition.onerror] and [recognition.onend] (lines 35-42) *)

Definition onerror (code : jsstring) (s : App) : App :=
  setIsListening false
    (setError (Some (recognition_error_message code)) s).

Definition onend (s : App) : App := setIsListening false s.

(** *** [toggleListening] (lines 50-62)

    [recognitionRef.current?.start()] calls nothing when the ref is [null];
    [host] says what the call does when there is an object to call. *)

Definition toggleListening (host : start_result) (s : App) : App :=
  if isListening s then
    match recognitionRef s with
    | Some _ => callRecognition CallStop s
    | None => s
    end
  else
    match recognitionRef s, host with
    | Some _, StartThrows =>
        setError (Some start_failed_message) (callRecognition CallStart s)
    | Some _, Started =>
        setError None (setIsListening true (callRecognition CallStart s))
    | None, _ =>
        setError None (setIsListening true s)
    end.

(** *** [copyToClipboard] and [clearTranscript] (lines 64-71) *)

Definition copyToClipboard (s : App) : App := writeClipboard (transcript s) s.

Definition clearTranscript (s : App) : App :=
  setSummary [] (setTranscript [] s).

(** *** [summarizeTranscript] (lines 73-107) *)

Definition line_feed : N := 10%N.

Definition summary_prompt (t : jsstring) : jsstring :=
  js "Please summarize the following text:" ++ [line_feed; line_feed] ++
  t ++ [line_feed; line_feed] ++ js "Summary:".

Definition summary_request (s : App) : Axios.request :=
  {| Axios.url :=
       js "https://api.openai.com/v1/engines/text-davinci-002/completions";
     Axios.data :=
       VObject [ (js "prompt", VString (summary_prompt (transcript s)));
                 (js "max_tokens", VNumber 100);
                 (js "n", VNumber 1);
                 (js "stop", VNull);
                 (js "temperature", VNumber (1 # 2)) ];
     Axios.headers :=
       [ (js "Authorization", js "Bearer " ++ template_hole (apiKey s));
         (js "Content-Type", js "application/json") ] |}.

Definition axios_post (r : Axios.request) (s : App) : App :=
  setInflight (inflight s ++ [r]) s.

(** Lines 74-98: from the call up to the [await]. *)
Definition summarizeTranscript (s : App) : App :=
  match transcript s with
  | [] => setError (Some nothing_to_summarize_message) s
  | _ :: _ =>
      axios_post (summary_request s) (setError None (setIsSummarizing true s))
  end.

(** [data.choices[0].text.trim()] of line 100. *)
Definition read_summary (data : value) : completion jsstring :=
  choices ← get data (js "choices");
  choice ← get0 choices;
  text ← get choice (js "text");
  call_trim text.

(** The [try] block of lines 82-100 up to the argument of [setSummary]. *)
Definition first_choice_text (o : Axios.settlement) : completion jsstring :=
  data ← Axios.await_data o;
  read_summary data.

(** Lines 100-106: what runs once the request has settled. *)
Definition summarizeTranscript_resume (o : Axios.settlement) (s : App) : App :=
  let s' :=
    match first_choice_text o with
    | Normal text => setSummary text s
    | Throw cause =>
        consoleError (js "Error summarizing transcript:") cause
          (setError (Some summary_failed_message) s)
    end in
  setIsSummarizing false s'.

(** *** The rendered controls (lines 114-154) *)

(** [disabled={isSummarizing}] of line 147. *)
Definition summarize_disabled (s : App) : bool := isSummarizing s.

Definition click_summarize (s : App) : App :=
  if summarize_disabled s then s else summarizeTranscript s.

(** ** The event loop

    One handler runs at a time.  Recognition callbacks need the recognition
    object the effect installed them on; a settlement needs a request in
    flight, which it takes out. *)

Inductive action : Type :=
| ClickToggle (host : start_result)
| ClickCopy
| ClickClear
| ClickSummarize
| RecognitionResult (event : SpeechRecognitionEvent)
| RecognitionError (code : jsstring)
| RecognitionEnd
| RequestSettled (k : nat) (o : Axios.settlement).

Definition step (a : action) (s : App) : option App :=
  match a with
  | ClickToggle host => Some (toggleListening host s)
  | ClickCopy => Some (copyToClipboard s)
  | ClickClear => Some (clearTranscript s)
  | ClickSummarize => Some (click_summarize s)
  | RecognitionResult event => _ ← recognitionRef s; Some (onresult event s)
  | RecognitionError code => _ ← recognitionRef s; Some (onerror code s)
  | RecognitionEnd => _ ← recognitionRef s; Some (onend s)
  | RequestSettled k o =>
      _ ← inflight s !! k;
      Some (summarizeTranscript_resume o
              (setInflight (delete k (inflight s)) s))
  end.

Fixpoint run (trace : list action) (s : App) : option App :=
  match trace with
  | [] => Some s
  | a :: trace' => s' ← step a s; run trace' s'
  end.

Inductive Reachable (h : Host) : App -> Prop :=
| reach_mount : Reachable h (mount h)
| reach_step a s s' :
    Reachable h s -> step a s = Some s' -> Reachable h s'.

(** The summarizing flag and the requests in flight move together. *)
Definition in_step (s : App) : Prop :=
  if isSummarizing s then length (inflight s) = 1 else inflight s = [].

(** ** The transcript as the specification words it *)

(** The segments an event delivers: its results from [resultIndex] on. *)
Definition segments (event : SpeechRecognitionEvent)
  : list SpeechRecognitionResult :=
  drop (resultIndex event) (results event).

Definition segment_text (r : SpeechRecognitionResult) : jsstring :=
  WebSpeech.transcript (item0 r).

(** Every final segment, each followed by one space. *)
Definition finalized_text (rs : list SpeechRecognitionResult) : jsstring :=
  concat (map (fun r => segment_text r ++ js " ")
            (filter (fun r => isFinal r = true) rs)).

(** The interim segments, concatenated. *)
Definition interim_text (rs : list SpeechRecognitionResult) : jsstring :=
  concat (map segment_text (filter (fun r => isFinal r = false) rs)).

Definition displayed_transcript (events : list SpeechRecognitionEvent)
  : jsstring :=
  finalized_text (concat (map segments events)) ++
  match last events with
  | Some event => interim_text (segments event)
  | None => []
  end.

(** Delivering a sequence of events to [recognition.onresult]. *)
Definition deliver (events : list SpeechRecognitionEvent) (s : App) : App :=
  foldl (fun s event => onresult event s) s events.

(** ** Trimmed text as the specification words it *)

Definition white (s : jsstring) : Prop :=
  Forall (fun c => is_white_space c = true) s.

Definition starts_black (s : jsstring) : Prop :=
  forall c, head s = Some c -> is_white_space c = false.

Definition ends_black (s : jsstring) : Prop :=
  forall c, last s = Some c -> is_white_space c = false.

(** [t] is [s] with its surrounding white space removed. *)
Definition trimmed_of (s t : jsstring) : Prop :=
  (exists l r, s = l ++ t ++ r /\ white l /\ white r) /\
  starts_black t /\ ends_black t.

(** The response body the specification names,
    [{choices: [{text: string}, ...]}]: an object whose [choices] is an
    array that starts with an object whose [text] is a string. *)
Definition consumed_shape (body : value) : Prop :=
  exists fields choice others text,
    body = VObject fields /\
    own_property (js "choices") fields =
      Some (VArray (VObject choice :: others)) /\
    own_property (js "text") choice = Some (VString text).

(** Failure as the specification words it: a network error, a response
    outside 2xx, or a body that is not of the consumed shape. *)
Inductive FailedAsSpecified : Axios.settlement -> Prop :=
| specified_network message : FailedAsSpecified (Axios.NoResponse message)
| specified_status status body :
    Axios.validateStatus status = false ->
    FailedAsSpecified (Axios.Response status body)
| specified_body status body :
    Axios.validateStatus status = true ->
    ~ consumed_shape body ->
    FailedAsSpecified (Axios.Response status body).

(** Where a value can hold an object at [0]: the head of an array, or the
    member named "0" of an object. *)
Inductive element0 : value -> value -> Prop :=
| element0_array e rest : element0 (VArray (e :: rest)) e
| element0_object fields e :
    own_property (js "0") fields = Some e -> element0 (VObject fields) e.

(** The string [text] sits in [body] under [choices], [0], [text]. *)
Definition text_found (body : value) (text : jsstring) : Prop :=
  exists fields choices members,
    body = VObject fields /\
    own_property (js "choices") fields = Some choices /\
    element0 choices (VObject members) /\
    own_property (js "text") members = Some (VString text).

(** How a summarization request fails: no response arrives, the response
    is outside 2xx, or the body of a 2xx response holds no string under
    [choices], [0], [text]. *)
Inductive Failed : Axios.settlement -> exn -> Prop :=
| failed_network message :
    Failed (Axios.NoResponse message) (AxiosNetworkError message)
| failed_status status body :
    Axios.validateStatus status = false ->
    Failed (Axios.Response status body) (AxiosBadStatus status body)
| failed_body status body :
    Axios.validateStatus status = true ->
    (forall text, ~ text_found body text) ->
    Failed (Axios.Response status body) TypeError.

(** ** Sample inputs *)

Definition segment (final : bool) (text : string) : SpeechRecognitionResult :=
  {| isFinal := final;
     item0 := {| WebSpeech.transcript := js text |};
     items := [] |}.

Definition chrome : Host :=
  {| hasSpeechRecognition := false;
     hasWebkitSpeechRecognition := true;
     VITE_OPENAI_API_KEY := Some (js "sk-test") |}.

Definition no_recognition : Host :=
  {| hasSpeechRecognition := false;
     hasWebkitSpeechRecognition := false;
     VITE_OPENAI_API_KEY := Some (js "sk-test") |}.

Definition hello_event : SpeechRecognitionEvent :=
  {| resultIndex := 0; results := [segment true "hello"] |}.

Definition world_event : SpeechRecognitionEvent :=
  {| resultIndex := 0; results := [segment false " world"] |}.

(** The same two updates the way a continuous recognizer delivers them: the
    second event carries the whole result list and points past the final
    segment. *)
Definition world_event_indexed : SpeechRecognitionEvent :=
  {| resultIndex := 1;
     results := [segment true "hello"; segment false " world"] |}.

Definition short_summary_body : value :=
  VObject
    [ (js "choices",
       VArray [ VObject [ (js "text", VString (js " A short summary. ")) ] ]) ].

(** A body whose [choices] is an object with a member named "0". *)
Definition object_choices_body : value :=
  VObject
    [ (js "choices",
       VObject
         [ (js "0", VObject [ (js "text", VString (js " from object ")) ]) ]) ].

(** A transcript was recognized and its summary requested. *)
Definition awaiting_summary : App :=
  click_summarize (onresult hello_event (mount chrome)).

(** A first start failed and shows its message. *)
Definition failed_start : App := toggleListening StartThrows (mount chrome).

(** Text arrives while that message is still shown. *)
Definition hello_after_failed_start : App := onresult hello_event failed_start.

(** ** What the component renders (lines 109-166) *)

Inductive icon : Type := Mic | MicOff.

(** A string in a condition. *)
Definition truthy (t : jsstring) : bool :=
  match t with
  | [] => false
  | _ :: _ => true
  end.

(** The parts of the tree that depend on the state.  A paragraph guarded by
    [x && ...] is absent when [x] is [null] or the empty string. *)
Record View : Type := {
  toggleClass : jsstring;
  toggleIcon : icon;
  toggleLabel : jsstring;
  errorParagraph : option jsstring;
  transcriptParagraph : jsstring;
  summarizeDisabled : bool;
  summarizeClass : jsstring;
  summarizeLabel : jsstring;
  summaryParagraph : option jsstring
}.

Definition render (s : App) : View :=
  {| toggleClass :=
       js "flex items-center px-4 py-2 rounded-full " ++
       (if isListening s then js "bg-red-500 text-white"
        else js "bg-blue-500 text-white");
     toggleIcon := if isListening s then MicOff else Mic;
     toggleLabel :=
       if isListening s then js "Stop Listening" else js "Start Listening";
     errorParagraph :=
       match error s with
       | Some message => if truthy message then Some message else None
       | None => None
       end;
     transcriptParagraph := transcript s;
     summarizeDisabled := summarize_disabled s;
     summarizeClass :=
       js "flex items-center px-4 py-2 rounded-full " ++
       (if isSummarizing s then js "bg-gray-400 cursor-not-allowed"
        else js "bg-green-500 text-white");
     summarizeLabel :=
       if isSummarizing s then js "Summarizing..." else js "Summarize";
     summaryParagraph :=
       if truthy (summary s) then Some (summary s) else None |}.

(** ** Vocabulary for the properties of whole runs *)

(** [window.SpeechRecognition || window.webkitSpeechRecognition] of line 14,
    as a condition. *)
Definition capable (h : Host) : bool :=
  hasSpeechRecognition h || hasWebkitSpeechRecognition h.

(** The recognition updates among the actions of a trace, in order. *)
Definition delivered (trace : list action) : list SpeechRecognitionEvent :=
  omap (fun a =>
          match a with
          | RecognitionResult event => Some event
          | _ => None
          end) trace.

(** The five forms of message the handlers write to the error slot. *)
Definition known_message (m : jsstring) : Prop :=
  m = unsupported_message \/ m = start_failed_message \/
  m = nothing_to_summarize_message \/ m = summary_failed_message \/
  exists code, m = recognition_error_message code.

(** ** More sample inputs *)

Definition no_key : Host :=
  {| hasSpeechRecognition := true;
     hasWebkitSpeechRecognition := false;
     VITE_OPENAI_API_KEY := None |}.

(** A final segment whose text is empty. *)
Definition silent_event : SpeechRecognitionEvent :=
  {| resultIndex := 0; results := [segment true String.EmptyString] |}.

(** An event whose cursor is past its results. *)
Definition exhausted_event : SpeechRecognitionEvent :=
  {| resultIndex := 2; results := [segment true "hello"] |}.

Definition blank_summary_body : value :=
  VObject
    [ (js "choices",
       VArray [ VObject [ (js "text", VString [32; 10; 9]%N) ] ]) ].

(** Listening was toggled on a host without recognition. *)
Definition phantom_listening : App :=
  toggleListening Started (mount no_recognition).

(** ** Recognition updates *)

Section Folding.

Implicit Types (r : SpeechRecognitionResult).
Implicit Types (rs : list SpeechRecognitionResult).

Lemma finalized_text_cons r rs :
  finalized_text (r :: rs) =
  (if isFinal r then segment_text r ++ js " " else []) ++ finalized_text rs.
Proof.
  unfold finalized_text. destruct (isFinal r) eqn:E.
  - rewrite filter_cons_True by done. done.
  - rewrite filter_cons_False by (rewrite E; done). done.
Qed.

Lemma interim_text_cons r rs :
  interim_text (r :: rs) =
  (if isFinal r then [] else segment_text r) ++ interim_text rs.
Proof.
  unfold interim_text. destruct (isFinal r) eqn:E.
  - rewrite filter_cons_False by (rewrite E; done). done.
  - rewrite filter_cons_True by done. done.
Qed.

Lemma finalized_text_app rs1 rs2 :
  finalized_text (rs1 ++ rs2) = finalized_text rs1 ++ finalized_text rs2.
Proof.
  induction rs1 as [|r rs1 IH]; [done|].
  rewrite <- app_comm_cons, !finalized_text_cons, IH. by rewrite app_assoc.
Qed.

Lemma onresult_loop_drop rs i finalT interimT :
  onresult_loop rs i finalT interimT =
  (finalT ++ finalized_text (drop i rs), interimT ++ interim_text (drop i rs)).
Proof.
  funelim (onresult_loop rs i finalT interimT).
  - clear Heqcall H1.
    rewrite (drop_S _ _ _ Hi), finalized_text_cons, interim_text_cons.
    destruct (isFinal r).
    + rewrite H. f_equal. by rewrite <- !app_assoc.
    + rewrite H0. f_equal. by rewrite <- !app_assoc.
  - pose proof (proj1 (lookup_ge_None _ _) Hi).
    rewrite drop_ge by lia. unfold finalized_text, interim_text. simpl.
    by rewrite !app_nil_r.
Qed.

End Folding.

Lemma onresult_eq event s :
  onresult event s =
  let finalT := finalTranscript s ++ finalized_text (segments event) in
  setTranscript (finalT ++ interim_text (segments event))
    (setFinalTranscript finalT s).
Proof. unfold onresult. by rewrite onresult_loop_drop. Qed.

Lemma deliver_snoc events event s :
  deliver (events ++ [event]) s = onresult event (deliver events s).
Proof. unfold deliver. by rewrite foldl_snoc. Qed.

Lemma deliver_finalTranscript events s :
  finalTranscript (deliver events s) =
  finalTranscript s ++ finalized_text (concat (map segments events)).
Proof.
  induction events as [|event events IH] using rev_ind.
  - simpl. unfold finalized_text. simpl. by rewrite app_nil_r.
  - rewrite deliver_snoc, onresult_eq. simpl. 
    rewrite IH, map_app, concat_app, finalized_text_app. simpl.
    by rewrite app_nil_r, app_assoc.
Qed.

Lemma deliver_transcript events s :
  transcript (deliver events s) =
  match last events with
  | Some event =>
      finalTranscript (deliver events s) ++ interim_text (segments event)
  | None => transcript s
  end.
Proof.
  destruct events as [|event events _] using rev_ind; [done|].
  rewrite last_snoc, deliver_snoc, onresult_eq. done.
Qed.

Lemma deliver_run events s :
  is_Some (recognitionRef s) ->
  run (map RecognitionResult events) s = Some (deliver events s).
Proof.
  revert s. induction events as [|event events IH]; intros s [r Hr]; [done|].
  simpl. rewrite Hr. simpl. apply IH. rewrite onresult_eq. simpl. eauto.
Qed.

Lemma mount_capable h :
  hasSpeechRecognition h || hasWebkitSpeechRecognition h = true ->
  is_Some (recognitionRef (mount h)) /\ finalTranscript (mount h) = [] /\
  transcript (mount h) = [].
Proof. intros H. unfold mount, mountEffect. rewrite H. simpl. eauto. Qed.

Lemma deliver_displayed h events :
  hasSpeechRecognition h || hasWebkitSpeechRecognition h = true ->
  transcript (deliver events (mount h)) = displayed_transcript events.
Proof.
  intros Hcap. destruct (mount_capable h Hcap) as (Href & Hfinal & Hshown).
  rewrite deliver_transcript, deliver_finalTranscript, Hfinal, Hshown.
  unfold displayed_transcript. simpl.
  destruct (last events) eqn:Hlast; [done|].
  apply last_None in Hlast. subst events. done.
Qed.

Example indexed_delivery_displays_hello_world :
  displayed_transcript [hello_event; world_event_indexed] = js "hello  world" /\
  transcript (deliver [hello_event; world_event_indexed] (mount chrome)) =
    js "hello  world".
Proof. split; vm_compute; reflexivity. Qed.

(** The clear action does not reach [finalTranscript]: the next update
    displays what it would have displayed without the clear. *)
Lemma onresult_after_clear event s :
  transcript (onresult event (clearTranscript s)) =
  transcript (onresult event s).
Proof. by rewrite !onresult_eq. Qed.

(** ** Toggling *)

Lemma mount_incapable h :
  hasSpeechRecognition h || hasWebkitSpeechRecognition h = false ->
  mount h = setError (Some unsupported_message) (initial h).
Proof. intros H. unfold mount, mountEffect. by rewrite H. Qed.

(** C2: on a host without the capability the mount effect shows the
    unsupported-capability message, and the first toggle then sets the
    listening flag and empties the error slot. *)
Theorem toggle_without_capability_sets_listening :
  recognitionRef (mount no_recognition) = None /\
  isListening (mount no_recognition) = false /\
  error (mount no_recognition) = Some unsupported_message /\
  forall host,
    isListening (toggleListening host (mount no_recognition)) = true /\
    error (toggleListening host (mount no_recognition)) = None.
Proof. repeat split; destruct host; reflexivity. Qed.

(** Without a recognition object nothing ever resets the flag: no callback
    is installed, and a further toggle calls [stop] on nothing. *)
Lemma listening_stuck_without_capability a s s' :
  recognitionRef s = None -> isListening s = true -> step a s = Some s' ->
  recognitionRef s' = None /\ isListening s' = true.
Proof.
  intros Href Hon Hstep. destruct a; simpl in Hstep;
    rewrite ?Href in Hstep; try discriminate.
  - injection Hstep as <-. unfold toggleListening. by rewrite Hon, Href.
  - by injection Hstep as <-.
  - by injection Hstep as <-.
  - injection Hstep as <-. unfold click_summarize, summarizeTranscript.
    destruct (summarize_disabled s), (transcript s); done.
  - destruct (inflight s !! k); [|discriminate]. injection Hstep as <-.
    unfold summarizeTranscript_resume.
    by destruct (first_choice_text o).
Qed.

(** C8: when listening is off and [start()] does not throw (or there is no
    object to call it on), a toggle empties the error slot, whatever it
    held; this includes the unsupported-capability message of the mount
    effect. *)
Theorem toggle_off_clears_error (host : start_result) (s : App) :
  isListening s = false ->
  recognitionRef s = None \/ host = Started ->
  error (toggleListening host s) = None /\
  (error (mount no_recognition) = Some unsupported_message /\
   error (toggleListening host (mount no_recognition)) = None).
Proof.
  intros Hoff Hstart. split.
  - unfold toggleListening. rewrite Hoff.
    destruct Hstart as [-> | ->]; [done|].
    by destruct (recognitionRef s).
  - by destruct host.
Qed.

Lemma toggle_off_clears_error_after_failed_start :
  isListening failed_start = false /\
  (recognitionRef failed_start = None \/ Started = Started) /\
  error failed_start = Some start_failed_message /\
  error (toggleListening Started failed_start) = None.
Proof.
  split; [reflexivity|]. split; [by right|]. split; [reflexivity|].
  apply (toggle_off_clears_error Started failed_start).
  - reflexivity.
  - by right.
Defined.

(** ** Clearing *)

(** C7: the clear action empties the transcript and the summary and keeps
    the listening flag. *)
Theorem clear_empties_text_keeps_listening (s : App) :
  transcript (clearTranscript s) = [] /\
  summary (clearTranscript s) = [] /\
  isListening (clearTranscript s) = isListening s.
Proof. done. Qed.

(** C10: the clear action keeps the error slot and the summarizing flag;
    the transcript and the summary are the only parts of the state it
    writes. *)
Theorem clear_writes_only_transcript_and_summary (s : App) :
  error (clearTranscript s) = error s /\
  isSummarizing (clearTranscript s) = isSummarizing s /\
  clearTranscript s =
    {| isListening := isListening s; transcript := []; summary := [];
       isSummarizing := isSummarizing s; recognitionRef := recognitionRef s;
       error := error s; finalTranscript := finalTranscript s;
       apiKey := apiKey s; recognitionCalls := recognitionCalls s;
       inflight := inflight s; console := console s;
       clipboard := clipboard s |}.
Proof. done. Qed.

(** ** Trimming *)

Lemma trimStart_split (s : jsstring) :
  exists l, s = l ++ trimStart s /\ white l.
Proof.
  induction s as [|c s (l & Hs & Hl)].
  - exists []. split; [done|constructor].
  - simpl. destruct (is_white_space c) eqn:Hc.
    + exists (c :: l). split; [simpl; by f_equal|by constructor].
    + exists []. split; [done|constructor].
Qed.

Lemma trimStart_starts_black (s : jsstring) : starts_black (trimStart s).
Proof.
  induction s as [|c s IH]; [by intros c|].
  simpl. destruct (is_white_space c) eqn:Hc; [done|].
  intros c' [= <-]. done.
Qed.

Lemma trimEnd_split (s : jsstring) :
  exists r, s = trimEnd s ++ r /\ white r.
Proof.
  destruct (trimStart_split (reverse s)) as (l & Hs & Hl).
  exists (reverse l). split; [|by apply Forall_reverse].
  unfold trimEnd. rewrite <- reverse_app, <- Hs. by rewrite reverse_involutive.
Qed.

Lemma trimEnd_ends_black (s : jsstring) : ends_black (trimEnd s).
Proof.
  intros c. unfold trimEnd. rewrite last_reverse.
  apply trimStart_starts_black.
Qed.

Lemma trimEnd_starts_black (s : jsstring) :
  starts_black s -> starts_black (trimEnd s).
Proof.
  intros Hs c Hc. destruct (trimEnd_split s) as (r & Heq & _).
  apply Hs. rewrite Heq. destruct (trimEnd s); [done|]. done.
Qed.

Lemma trim_trimmed_of (s : jsstring) : trimmed_of s (trim s).
Proof.
  unfold trim. destruct (trimStart_split s) as (l & Hl & Hwl).
  destruct (trimEnd_split (trimStart s)) as (r & Hr & Hwr).
  split; [|split].
  - exists l, r. by rewrite <- Hr.
  - apply trimEnd_starts_black, trimStart_starts_black.
  - apply trimEnd_ends_black.
Qed.

(** ** Summarizing *)

(** C3: with an empty transcript, [summarizeTranscript] issues no request,
    sets the error slot to the nothing-to-summarize message and keeps the
    summary; a click on the enabled button does exactly that. *)
Theorem summarize_empty_transcript (s : App) :
  transcript s = [] ->
  inflight (summarizeTranscript s) = inflight s /\
  error (summarizeTranscript s) = Some nothing_to_summarize_message /\
  summary (summarizeTranscript s) = summary s /\
  summarizeTranscript s = setError (Some nothing_to_summarize_message) s /\
  (summarize_disabled s = false ->
   step ClickSummarize s = Some (summarizeTranscript s)).
Proof.
  intros Hempty. unfold summarizeTranscript. rewrite Hempty.
  repeat split. intros Hon. simpl. unfold click_summarize, summarizeTranscript.
  by rewrite Hon, Hempty.
Qed.

Lemma summarize_empty_transcript_on_mount :
  transcript (mount chrome) = [] /\
  inflight (summarizeTranscript (mount chrome)) = inflight (mount chrome) /\
  error (summarizeTranscript (mount chrome)) =
    Some nothing_to_summarize_message /\
  summary (summarizeTranscript (mount chrome)) = summary (mount chrome) /\
  summarizeTranscript (mount chrome) =
    setError (Some nothing_to_summarize_message) (mount chrome) /\
  (summarize_disabled (mount chrome) = false ->
   step ClickSummarize (mount chrome) =
     Some (summarizeTranscript (mount chrome))).
Proof.
  split; [reflexivity|].
  apply (summarize_empty_transcript (mount chrome)). reflexivity.
Defined.

(** C9: with a non-empty transcript, [summarizeTranscript] empties the error
    slot and only then posts the request: the request is issued from a state
    whose error slot is already empty and which has no new request yet. *)
Theorem summarize_clears_error_before_request (s : App) :
  transcript s <> [] ->
  exists s0,
    error s0 = None /\
    isSummarizing s0 = true /\
    inflight s0 = inflight s /\
    summarizeTranscript s = axios_post (summary_request s) s0 /\
    error (summarizeTranscript s) = None /\
    inflight (summarizeTranscript s) = inflight s ++ [summary_request s].
Proof.
  intros Hfull. exists (setError None (setIsSummarizing true s)).
  unfold summarizeTranscript. by destruct (transcript s).
Qed.

Lemma summarize_clears_error_before_request_after_failure :
  error hello_after_failed_start = Some start_failed_message /\
  transcript hello_after_failed_start <> [] /\
  exists s0,
    error s0 = None /\
    isSummarizing s0 = true /\
    inflight s0 = inflight hello_after_failed_start /\
    summarizeTranscript hello_after_failed_start =
      axios_post (summary_request hello_after_failed_start) s0 /\
    error (summarizeTranscript hello_after_failed_start) = None /\
    inflight (summarizeTranscript hello_after_failed_start) =
      inflight hello_after_failed_start ++
      [summary_request hello_after_failed_start].
Proof.
  split; [reflexivity|]. split; [by vm_compute|].
  apply (summarize_clears_error_before_request hello_after_failed_start).
  by vm_compute.
Defined.

Lemma consumed_shape_text_found (body : value) :
  consumed_shape body -> exists text, text_found body text.
Proof.
  intros (fields & choice & others & text & -> & Hchoices & Htext).
  exists text, fields, (VArray (VObject choice :: others)), choice.
  repeat split; [done| |done]. constructor.
Qed.

(** Reading [choice.text.trim()] from a candidate element. *)
Lemma read_choice_text (choice : value) :
  (exists members text,
     choice = VObject members /\
     own_property (js "text") members = Some (VString text) /\
     (text ← get choice (js "text"); call_trim text) = Normal (trim text)) \/
  ((forall members text,
      choice = VObject members ->
      own_property (js "text") members <> Some (VString text)) /\
   (text ← get choice (js "text"); call_trim text) = Throw TypeError).
Proof.
  destruct choice as [| | b | q | t | elements | members];
    try (right; split; [intros ? ? [=]|reflexivity]).
  simpl. destruct (own_property (js "text") members) as [v|] eqn:Hv.
  - destruct v as [| | b | q | text | elements | fields];
      try (right; split; [by intros ? ? [= <-]; rewrite Hv|reflexivity]).
    left. exists members, text. by rewrite Hv.
  - right. split; [by intros ? ? [= <-]; rewrite Hv|reflexivity].
Qed.

(** [read_summary] returns the trimmed text exactly when a text is found,
    and throws a [TypeError] otherwise. *)
Lemma read_summary_cases (body : value) :
  (exists text,
     text_found body text /\ read_summary body = Normal (trim text)) \/
  ((forall text, ~ text_found body text) /\
   read_summary body = Throw TypeError).
Proof.
  unfold read_summary.
  destruct body as [| | b | q | t | elements | fields];
    try (right; split;
         [by intros ? (? & ? & ? & [=] & _)|reflexivity]).
  simpl. destruct (own_property (js "choices") fields) as [choices|] eqn:Hc;
    [|right; split;
      [intros ? (? & ? & ? & [= <-] & Hc' & _); by rewrite Hc in Hc'
      |reflexivity]].
  simpl.
  destruct choices as [| | b | q | t | elements | members].
  - right. split; [|reflexivity].
    intros text (? & ? & ? & [= <-] & Hc' & He & _).
    rewrite Hc in Hc'. injection Hc' as <-. inversion He.
  - right. split; [|reflexivity].
    intros text (? & ? & ? & [= <-] & Hc' & He & _).
    rewrite Hc in Hc'. injection Hc' as <-. inversion He.
  - right. split; [|reflexivity].
    intros text (? & ? & ? & [= <-] & Hc' & He & _).
    rewrite Hc in Hc'. injection Hc' as <-. inversion He.
  - right. split; [|reflexivity].
    intros text (? & ? & ? & [= <-] & Hc' & He & _).
    rewrite Hc in Hc'. injection Hc' as <-. inversion He.
  - right. split; [|by destruct t].
    intros text (? & ? & ? & [= <-] & Hc' & He & _).
    rewrite Hc in Hc'. injection Hc' as <-. inversion He.
  - destruct elements as [|e rest]; simpl.
    + right. split; [|reflexivity].
      intros text (? & ? & ? & [= <-] & Hc' & He & _).
      rewrite Hc in Hc'. injection Hc' as <-. inversion He.
    + destruct (read_choice_text e)
        as [(members & text & -> & Htext & Heq) | [Hno Heq]];
        simpl in Heq |- *; rewrite Heq.
      * left. exists text. split; [|done].
        exists fields, (VArray (VObject members :: rest)), members.
        repeat split; [done| |done]. constructor.
      * right. split; [|done].
        intros text (? & ? & members & [= <-] & Hc' & He & Htext).
        rewrite Hc in Hc'. injection Hc' as <-. inversion He; subst.
        by apply (Hno members text).
  - simpl. destruct (own_property (js "0") members) as [e|] eqn:H0; simpl.
    + destruct (read_choice_text e)
        as [(members' & text & -> & Htext & Heq) | [Hno Heq]];
        simpl in Heq |- *; rewrite Heq.
      * left. exists text. split; [|done].
        exists fields, (VObject members), members'.
        repeat split; [done| |done]. by constructor.
      * right. split; [|done].
        intros text (? & ? & members' & [= <-] & Hc' & He & Htext).
        rewrite Hc in Hc'. injection Hc' as <-. inversion He; subst.
        rewrite H0 in H1. injection H1 as H1.
        by apply (Hno members' text).
    + right. split; [|done].
      intros text (? & ? & members' & [= <-] & Hc' & He & Htext).
      rewrite Hc in Hc'. injection Hc' as <-. inversion He; subst.
      by rewrite H0 in H1.
Qed.

Lemma first_choice_text_throws (o : Axios.settlement) (cause : exn) :
  Failed o cause <-> first_choice_text o = Throw cause.
Proof.
  unfold first_choice_text. split.
  - intros [message | status body Hstatus | status body Hstatus Hbody];
      simpl; rewrite ?Hstatus; try done. simpl.
    destruct (read_summary_cases body) as [(text & Hfound & _) | [_ ->]];
      [|done].
    by destruct (Hbody text).
  - destruct o as [message | status body]; simpl.
    + intros [= <-]. constructor.
    + destruct (Axios.validateStatus status) eqn:Hstatus; simpl.
      * destruct (read_summary_cases body) as [(text & _ & ->) | [Hno ->]];
          [done|].
        intros [= <-]. by constructor.
      * intros [= <-]. by constructor.
Qed.

(** C4, as stated, fails: the 2xx body [object_choices_body], whose
    [choices] is an object with a member named "0", is not of the shape the
    specification names, so the request counts as failed; yet the
    continuation shows no error and replaces the summary. *)
Lemma malformed_body_replaces_summary :
  FailedAsSpecified (Axios.Response 200 object_choices_body) /\
  error (summarizeTranscript_resume (Axios.Response 200 object_choices_body)
           awaiting_summary) = None /\
  summary awaiting_summary = [] /\
  summary (summarizeTranscript_resume (Axios.Response 200 object_choices_body)
             awaiting_summary) = js "from object" /\
  ~ (error (summarizeTranscript_resume
              (Axios.Response 200 object_choices_body) awaiting_summary) =
       Some summary_failed_message /\
     summary (summarizeTranscript_resume
                (Axios.Response 200 object_choices_body) awaiting_summary) =
       summary awaiting_summary).
Proof.
  split.
  { apply specified_body; [reflexivity|].
    intros (fields & choice & others & text & [= <-] & Hchoices & _).
    vm_compute in Hchoices. discriminate. }
  split; [by vm_compute|]. split; [by vm_compute|]. split; [by vm_compute|].
  intros [Herror _]. vm_compute in Herror. discriminate.
Qed.

(** C4, amended: when a summarization request fails (no response, a
    response outside 2xx, or a 2xx body that holds no string under
    [choices], [0], [text]) the continuation sets the error slot to the
    fixed failure message, keeps the summary and the transcript, and appends
    the cause to the console only; a response with status 500 is such a
    failure.  A 2xx body in which a text is found is no failure, whatever
    else its shape: the trimmed text becomes the summary and the error slot
    is kept. *)
Theorem failed_summary_shows_generic_message
    (o : Axios.settlement) (cause : exn) (s : App) :
  Failed o cause ->
  error (summarizeTranscript_resume o s) = Some summary_failed_message /\
  summary (summarizeTranscript_resume o s) = summary s /\
  transcript (summarizeTranscript_resume o s) = transcript s /\
  console (summarizeTranscript_resume o s) =
    console s ++ [(js "Error summarizing transcript:", cause)] /\
  (forall body,
     error (summarizeTranscript_resume (Axios.Response 500 body) s) =
       Some summary_failed_message /\
     summary (summarizeTranscript_resume (Axios.Response 500 body) s) =
       summary s) /\
  (forall status body text,
     Axios.validateStatus status = true ->
     text_found body text ->
     summary (summarizeTranscript_resume (Axios.Response status body) s) =
       trim text /\
     error (summarizeTranscript_resume (Axios.Response status body) s) =
       error s).
Proof.
  intros Hfail. apply first_choice_text_throws in Hfail.
  unfold summarizeTranscript_resume. rewrite Hfail.
  repeat split; try done.
  all: unfold first_choice_text; simpl; rewrite H; simpl.
  all: destruct (read_summary_cases body) as [(t & Ht & ->) | [Hno _]];
    [|by destruct (Hno text)].
  all: destruct H0 as (f1 & c1 & m1 & -> & Hc1 & He1 & Ht1).
  all: destruct Ht as (f2 & c2 & m2 & [= <-] & Hc2 & He2 & Ht2).
  all: rewrite Hc1 in Hc2; injection Hc2 as <-.
  all: assert (m2 = m1) as ->
    by (inversion He1; inversion He2; subst; congruence).
  all: rewrite Ht1 in Ht2; by injection Ht2 as <-.
Qed.

Lemma failed_summary_shows_generic_message_empty_choices :
  Failed (Axios.Response 200 (VObject [(js "choices", VArray [])])) TypeError /\
  error (summarizeTranscript_resume
           (Axios.Response 200 (VObject [(js "choices", VArray [])]))
           awaiting_summary) = Some summary_failed_message.
Proof.
  assert (Hfail :
    Failed (Axios.Response 200 (VObject [(js "choices", VArray [])]))
      TypeError).
  { apply failed_body; [reflexivity|].
    intros text (fields & choices & members & [= <-] & Hc & He & _).
    vm_compute in Hc. injection Hc as <-. inversion He. }
  split; [exact Hfail|].
  apply (failed_summary_shows_generic_message
           (Axios.Response 200 (VObject [(js "choices", VArray [])]))
           TypeError awaiting_summary).
  exact Hfail.
Defined.

Example bodies_of_the_wrong_shape :
  read_summary (VString []) = Throw TypeError /\
  read_summary (VObject []) = Throw TypeError /\
  read_summary (VObject [(js "choices", VString (js "text"))]) =
    Throw TypeError /\
  read_summary (VObject [(js "choices", VArray [VObject []])]) =
    Throw TypeError /\
  read_summary
    (VObject [(js "choices", VArray [VObject [(js "text", VNumber 5)]])]) =
    Throw TypeError.
Proof. repeat split. Qed.

(** C6: when a 2xx response carries [{choices: [{text: t}, ...]}], the
    continuation sets the summary to [t] with its surrounding white space
    removed, whatever the summary was before; the body
    [{choices: [{text: " A short summary. "}]}] gives "A short summary.". *)
Theorem summary_is_trimmed_first_choice
    (s : App) (status : nat) (fields choice : list (jsstring * value))
    (others : list value) (text : jsstring) :
  Axios.validateStatus status = true ->
  own_property (js "choices") fields =
    Some (VArray (VObject choice :: others)) ->
  own_property (js "text") choice = Some (VString text) ->
  summary
    (summarizeTranscript_resume (Axios.Response status (VObject fields)) s)
    = trim text /\
  trimmed_of text (trim text) /\
  summary (summarizeTranscript_resume (Axios.Response 200 short_summary_body) s)
    = js "A short summary.".
Proof.
  intros Hstatus Hchoices Htext. split; [|split].
  - unfold summarizeTranscript_resume, first_choice_text, read_summary.
    simpl. rewrite Hstatus. simpl. rewrite Hchoices. simpl.
    rewrite Htext. done.
  - apply trim_trimmed_of.
  - by vm_compute.
Qed.

Lemma summary_is_trimmed_first_choice_replaces_old :
  Axios.validateStatus 201 = true /\
  summary (summarizeTranscript_resume (Axios.Response 201 short_summary_body)
             (setSummary (js "old") awaiting_summary))
    = trim (js " A short summary. ").
Proof.
  split; [reflexivity|].
  apply (summary_is_trimmed_first_choice
           (setSummary (js "old") awaiting_summary) 201
           [(js "choices",
             VArray [VObject [(js "text", VString (js " A short summary. "))]])]
           [(js "text", VString (js " A short summary. "))] []
           (js " A short summary. ")); reflexivity.
Defined.

(** ** At most one request in flight *)

Lemma in_step_mount h : in_step (mount h).
Proof.
  unfold mount, mountEffect.
  by destruct (hasSpeechRecognition h || hasWebkitSpeechRecognition h).
Qed.

Lemma in_step_summarizeTranscript s :
  isSummarizing s = false -> in_step s -> in_step (summarizeTranscript s).
Proof.
  unfold in_step, summarizeTranscript. intros Hoff. rewrite Hoff. intros Hnone.
  destruct (transcript s); simpl; rewrite ?Hoff, ?Hnone; done.
Qed.

Lemma in_step_preserved a s s' : in_step s -> step a s = Some s' -> in_step s'.
Proof.
  intros Hs Hstep. destruct a; simpl in Hstep.
  - injection Hstep as <-. unfold toggleListening.
    by destruct (isListening s), (recognitionRef s), host.
  - by injection Hstep as <-.
  - by injection Hstep as <-.
  - injection Hstep as <-. unfold click_summarize, summarize_disabled.
    destruct (isSummarizing s) eqn:Hflag; [done|].
    by apply in_step_summarizeTranscript.
  - destruct (recognitionRef s); [|discriminate]. injection Hstep as <-.
    by rewrite onresult_eq.
  - destruct (recognitionRef s); [|discriminate]. by injection Hstep as <-.
  - destruct (recognitionRef s); [|discriminate]. by injection Hstep as <-.
  - destruct (inflight s !! k) eqn:Hk; [|discriminate]. injection Hstep as <-.
    unfold in_step in Hs. destruct (isSummarizing s).
    + destruct (inflight s) as [|r' [|r'' l]]; try discriminate.
      destruct k; [|done].
      unfold in_step, summarizeTranscript_resume.
      by destruct (first_choice_text o).
    + by rewrite Hs in Hk.
Qed.

Lemma Reachable_in_step h s : Reachable h s -> in_step s.
Proof.
  induction 1 as [|a s s' _ IH Hstep]; [apply in_step_mount|].
  by apply (in_step_preserved a s).
Qed.

(** C5: in every reachable state the summarizing flag is set exactly when
    one request is in flight, never more than one is, and while the flag is
    set the summarize button is disabled: a click changes nothing and so
    issues no second request. *)
Theorem one_summary_request_at_a_time (h : Host) (s : App) :
  Reachable h s ->
  (isSummarizing s = true <-> length (inflight s) = 1) /\
  length (inflight s) <= 1 /\
  (isSummarizing s = true ->
   summarize_disabled s = true /\ step ClickSummarize s = Some s).
Proof.
  intros Hreach. apply Reachable_in_step in Hreach. unfold in_step in Hreach.
  unfold summarize_disabled. simpl. unfold click_summarize, summarize_disabled.
  destruct (isSummarizing s); [rewrite Hreach|rewrite Hreach; simpl].
  - split; [done|]. split; [lia|done].
  - split; [split; discriminate|]. split; [lia|discriminate].
Qed.

Lemma Reachable_awaiting_summary : Reachable chrome awaiting_summary.
Proof.
  apply (reach_step chrome ClickSummarize
           (onresult hello_event (mount chrome))); [|reflexivity].
  apply (reach_step chrome (RecognitionResult hello_event) (mount chrome));
    [|reflexivity].
  apply reach_mount.
Defined.

Lemma one_summary_request_at_a_time_awaiting :
  Reachable chrome awaiting_summary /\
  isSummarizing awaiting_summary = true /\
  (isSummarizing awaiting_summary = true <->
   length (inflight awaiting_summary) = 1) /\
  length (inflight awaiting_summary) <= 1 /\
  (isSummarizing awaiting_summary = true ->
   summarize_disabled awaiting_summary = true /\
   step ClickSummarize awaiting_summary = Some awaiting_summary).
Proof.
  split; [apply Reachable_awaiting_summary|]. split; [reflexivity|].
  apply (one_summary_request_at_a_time chrome awaiting_summary).
  apply Reachable_awaiting_summary.
Defined.

(** ** Properties of whole runs *)

(** What an enabled step is, action by action. *)
Lemma step_inv a s s' :
  step a s = Some s' ->
  match a with
  | ClickToggle host => s' = toggleListening host s
  | ClickCopy => s' = copyToClipboard s
  | ClickClear => s' = clearTranscript s
  | ClickSummarize => s' = click_summarize s
  | RecognitionResult event =>
      is_Some (recognitionRef s) /\ s' = onresult event s
  | RecognitionError code =>
      is_Some (recognitionRef s) /\ s' = onerror code s
  | RecognitionEnd => is_Some (recognitionRef s) /\ s' = onend s
  | RequestSettled k o =>
      is_Some (inflight s !! k) /\
      s' = summarizeTranscript_resume o (setInflight (delete k (inflight s)) s)
  end.
Proof.
  destruct a; simpl; try (by intros [= <-]).
  - destruct (recognitionRef s); simpl; [|discriminate].
    intros [= <-]. eauto.
  - destruct (recognitionRef s); simpl; [|discriminate].
    intros [= <-]. eauto.
  - destruct (recognitionRef s); simpl; [|discriminate].
    intros [= <-]. eauto.
  - destruct (inflight s !! k); simpl; [|discriminate].
    intros [= <-]. eauto.
Qed.

Lemma run_app trace1 trace2 s :
  run (trace1 ++ trace2) s = s1 ← run trace1 s; run trace2 s1.
Proof.
  revert s. induction trace1 as [|a trace1 IH]; intros s; [done|].
  simpl. destruct (step a s); simpl; [apply IH|done].
Qed.

Lemma Reachable_run h trace s s' :
  Reachable h s -> run trace s = Some s' -> Reachable h s'.
Proof.
  revert s. induction trace as [|a trace IH]; intros s Hs Hrun; simpl in Hrun.
  - by injection Hrun as <-.
  - destruct (step a s) as [s1|] eqn:Hstep; [|discriminate].
    apply (IH s1); [|done]. by apply (reach_step h a s).
Qed.

Lemma Reachable_trace h s :
  Reachable h s <-> exists trace, run trace (mount h) = Some s.
Proof.
  split.
  - induction 1 as [|a s s' _ [trace Htrace] Hstep]; [by exists []|].
    exists (trace ++ [a]). rewrite run_app, Htrace. simpl. by rewrite Hstep.
  - intros [trace Htrace]. apply (Reachable_run h trace (mount h)); [|done].
    apply reach_mount.
Qed.

Lemma click_summarize_cases s :
  click_summarize s = s \/
  click_summarize s = setError (Some nothing_to_summarize_message) s \/
  (transcript s <> [] /\ isSummarizing s = false /\
   click_summarize s =
     axios_post (summary_request s) (setError None (setIsSummarizing true s))).
Proof.
  unfold click_summarize, summarize_disabled, summarizeTranscript.
  destruct (isSummarizing s); [by left|].
  destruct (transcript s); [right; by left|]. right; right. done.
Qed.

Lemma step_finalTranscript a s s' :
  step a s = Some s' ->
  finalTranscript s' =
  finalTranscript s ++ finalized_text (concat (map segments (delivered [a]))).
Proof.
  intros Hstep. apply step_inv in Hstep.
  destruct a; simpl; rewrite ?app_nil_r; try (subst s'; done).
  - subst s'. unfold toggleListening.
    by destruct (isListening s), (recognitionRef s), host.
  - subst s'.
    by destruct (click_summarize_cases s) as [-> | [-> | (_ & _ & ->)]].
  - destruct Hstep as [_ ->]. by rewrite onresult_eq.
  - by destruct Hstep as [_ ->].
  - by destruct Hstep as [_ ->].
  - destruct Hstep as [_ ->]. unfold summarizeTranscript_resume.
    by destruct (first_choice_text o).
Qed.

(** X1: along any run of the component, whatever clicks, errors and
    settlements come in between, the accumulated final text is the final
    segments of all recognition updates so far, each followed by a space:
    nothing but a recognition update writes it, and nothing resets it. *)
Theorem final_text_accumulates_along_runs
    (h : Host) (trace : list action) (s : App) :
  run trace (mount h) = Some s ->
  finalTranscript s = finalized_text (concat (map segments (delivered trace))).
Proof.
  assert (Hgen : forall s0, run trace s0 = Some s ->
    finalTranscript s =
    finalTranscript s0 ++
    finalized_text (concat (map segments (delivered trace)))).
  { induction trace as [|a trace IH]; intros s0 Hrun; simpl in Hrun.
    - injection Hrun as <-. by rewrite app_nil_r.
    - destruct (step a s0) as [s1|] eqn:Hstep; [|discriminate].
      rewrite (IH s1 Hrun), (step_finalTranscript a s0 s1 Hstep).
      rewrite <- app_assoc, <- finalized_text_app, <- concat_app, <- map_app.
      do 4 f_equal. unfold delivered. simpl. by destruct a. }
  intros Hrun. rewrite (Hgen _ Hrun).
  unfold mount, mountEffect. by destruct (_ || _).
Qed.

Lemma final_text_accumulates_along_runs_with_clear :
  run [RecognitionResult hello_event; ClickClear; ClickCopy;
       RecognitionResult world_event]
    (mount chrome) =
    Some (onresult world_event
            (copyToClipboard (clearTranscript
               (onresult hello_event (mount chrome))))) /\
  finalTranscript
    (onresult world_event
       (copyToClipboard (clearTranscript
          (onresult hello_event (mount chrome))))) =
    finalized_text
      (concat (map segments
         (delivered [RecognitionResult hello_event; ClickClear; ClickCopy;
                     RecognitionResult world_event]))).
Proof.
  split; [reflexivity|].
  apply (final_text_accumulates_along_runs chrome
           [RecognitionResult hello_event; ClickClear; ClickCopy;
            RecognitionResult world_event]).
  reflexivity.
Defined.

(** X2: the clear action empties the display but not the accumulated final
    text: the next recognition update displays all earlier final text again,
    followed by the new segments. *)
Theorem cleared_text_returns_with_next_update
    (event : SpeechRecognitionEvent) (s : App) :
  transcript (clearTranscript s) = [] /\
  finalTranscript (clearTranscript s) = finalTranscript s /\
  transcript (onresult event (clearTranscript s)) =
    finalTranscript s ++ finalized_text (segments event) ++
    interim_text (segments event).
Proof.
  split; [done|]. split; [done|]. rewrite onresult_eq. simpl.
  by rewrite app_assoc.
Qed.

(** X3: [onresult] trusts the cursor: an event delivered twice appends its
    final segments twice. *)
Theorem redelivered_finals_are_duplicated
    (event : SpeechRecognitionEvent) (s : App) :
  finalTranscript (onresult event (onresult event s)) =
    finalTranscript s ++ finalized_text (segments event) ++
    finalized_text (segments event) /\
  transcript (onresult event (onresult event s)) =
    finalTranscript s ++ finalized_text (segments event) ++
    finalized_text (segments event) ++ interim_text (segments event).
Proof. rewrite !onresult_eq. simpl. by rewrite <- !app_assoc. Qed.

(** X4: an event whose cursor is at or past the end of its results adds
    nothing: the accumulated final text stays, and the display falls back to
    it, dropping the interim text shown before. *)
Theorem event_past_its_results_drops_interim
    (event : SpeechRecognitionEvent) (s : App) :
  length (results event) <= resultIndex event ->
  finalTranscript (onresult event s) = finalTranscript s /\
  transcript (onresult event s) = finalTranscript s.
Proof.
  intros Hpast. rewrite onresult_eq. unfold segments.
  rewrite drop_ge by done. simpl. unfold finalized_text, interim_text. simpl.
  by rewrite !app_nil_r.
Qed.

Lemma event_past_its_results_drops_interim_after_world :
  length (results exhausted_event) <= resultIndex exhausted_event /\
  transcript (deliver [hello_event; world_event] (mount chrome)) =
    js "hello  world" /\
  transcript
    (onresult exhausted_event
       (deliver [hello_event; world_event] (mount chrome))) = js "hello ".
Proof.
  split; [simpl; lia|]. split; [by vm_compute|].
  transitivity
    (finalTranscript (deliver [hello_event; world_event] (mount chrome)));
    [|by vm_compute].
  apply (event_past_its_results_drops_interim exhausted_event
           (deliver [hello_event; world_event] (mount chrome))).
  simpl. lia.
Defined.

(** X5: every final segment contributes its separating space, so after an
    update with a final segment the transcript is not empty, even when the
    recognized text is; [summarizeTranscript] then posts a request instead
    of reporting that there is nothing to summarize. *)
Theorem final_segment_makes_transcript_nonempty
    (event : SpeechRecognitionEvent) (s : App) (r : SpeechRecognitionResult) :
  r ∈ segments event ->
  isFinal r = true ->
  transcript (onresult event s) <> [] /\
  inflight (summarizeTranscript (onresult event s)) =
    inflight s ++ [summary_request (onresult event s)].
Proof.
  intros Hin Hfinal.
  assert (Hne : transcript (onresult event s) <> []).
  { rewrite onresult_eq. simpl. intros Hnil.
    apply app_eq_nil in Hnil as [Hnil _].
    apply app_eq_nil in Hnil as [_ Hnil].
    apply list_elem_of_split in Hin as (l1 & l2 & Hsplit).
    rewrite Hsplit, finalized_text_app, finalized_text_cons, Hfinal in Hnil.
    apply app_eq_nil in Hnil as [_ Hnil].
    apply app_eq_nil in Hnil as [Hnil _].
    apply app_eq_nil in Hnil as [_ Hnil]. discriminate. }
  split; [done|].
  unfold summarizeTranscript. destruct (transcript (onresult event s)) eqn:E;
    [done|]. simpl. by rewrite onresult_eq.
Qed.

Lemma final_segment_makes_transcript_nonempty_silent :
  segment true String.EmptyString ∈ segments silent_event /\
  isFinal (segment true String.EmptyString) = true /\
  transcript (onresult silent_event (mount chrome)) = js " " /\
  transcript (onresult silent_event (mount chrome)) <> [] /\
  inflight (summarizeTranscript (onresult silent_event (mount chrome))) =
    inflight (mount chrome) ++
    [summary_request (onresult silent_event (mount chrome))].
Proof.
  split; [apply list_elem_of_here|]. split; [reflexivity|].
  split; [by vm_compute|].
  apply (final_segment_makes_transcript_nonempty silent_event (mount chrome)
           (segment true String.EmptyString));
    [apply list_elem_of_here|reflexivity].
Defined.

(** ** The listening flag *)



(** X7: when [start()] throws, the call was made, the flag stays off and
    the start-failure message is shown; nothing else changes, and a second
    toggle whose [start()] succeeds sets the flag and erases the message. *)
Theorem failed_start_can_be_retried (s : App) (r : SpeechRecognition) :
  recognitionRef s = Some r ->
  isListening s = false ->
  toggleListening StartThrows s =
    setError (Some start_failed_message) (callRecognition CallStart s) /\
  isListening (toggleListening StartThrows s) = false /\
  isListening (toggleListening Started (toggleListening StartThrows s)) =
    true /\
  error (toggleListening Started (toggleListening StartThrows s)) = None.
Proof.
  intros Href Hoff.
  assert (Hthrow : toggleListening StartThrows s =
            setError (Some start_failed_message)
              (callRecognition CallStart s)).
  { unfold toggleListening. by rewrite Hoff, Href. }
  rewrite Hthrow. unfold toggleListening. simpl. by rewrite Hoff, Href.
Qed.

Lemma failed_start_can_be_retried_chrome :
  recognitionRef (mount chrome) =
    Some {| continuous := true; interimResults := true;
            lang := js "en-US" |} /\
  isListening (mount chrome) = false /\
  toggleListening StartThrows (mount chrome) =
    setError (Some start_failed_message)
      (callRecognition CallStart (mount chrome)) /\
  isListening (toggleListening StartThrows (mount chrome)) = false /\
  isListening
    (toggleListening Started (toggleListening StartThrows (mount chrome))) =
    true /\
  error
    (toggleListening Started (toggleListening StartThrows (mount chrome))) =
    None.
Proof.
  split; [reflexivity|]. split; [reflexivity|].
  apply (failed_start_can_be_retried (mount chrome)
           {| continuous := true; interimResults := true;
              lang := js "en-US" |}); reflexivity.
Defined.

(** X8: a recognition error turns the flag off and shows the message built
    from the error code, from which the code can be read back; the end
    signal that follows keeps the message, and neither touches the
    transcript, the accumulated final text or the summary. *)
Theorem recognition_error_stops_and_stays_shown (code : jsstring) (s : App) :
  isListening (onend (onerror code s)) = false /\
  error (onend (onerror code s)) = Some (recognition_error_message code) /\
  transcript (onend (onerror code s)) = transcript s /\
  finalTranscript (onend (onerror code s)) = finalTranscript s /\
  summary (onend (onerror code s)) = summary s /\
  (forall code',
     recognition_error_message code' = recognition_error_message code ->
     code' = code).
Proof.
  repeat split. intros code' Heq. by apply app_inv_head in Heq.
Qed.

(** ** Invariants of reachable states *)

Lemma step_recognitionRef a s s' :
  step a s = Some s' ->
  recognitionRef s' = recognitionRef s /\ apiKey s' = apiKey s.
Proof.
  intros Hstep. apply step_inv in Hstep.
  destruct a; try (subst s'; done).
  - subst s'. unfold toggleListening.
    destruct (isListening s), (recognitionRef s) eqn:E, host; simpl;
      by rewrite ?E.
  - subst s'.
    by destruct (click_summarize_cases s) as [-> | [-> | (_ & _ & ->)]].
  - destruct Hstep as [_ ->]. by rewrite onresult_eq.
  - by destruct Hstep as [_ ->].
  - by destruct Hstep as [_ ->].
  - destruct Hstep as [_ ->]. unfold summarizeTranscript_resume.
    by destruct (first_choice_text o).
Qed.

(** X9: the recognition object and the credential are fixed at mount: in
    every reachable state the ref holds the object configured as continuous,
    with interim results, for en-US, exactly when the host has either
    constructor, and holds nothing otherwise; the key is the host's. *)
Theorem recognition_object_is_fixed_at_mount (h : Host) (s : App) :
  Reachable h s ->
  recognitionRef s =
    (if capable h then
       Some {| continuous := true; interimResults := true;
               lang := js "en-US" |}
     else None) /\
  apiKey s = VITE_OPENAI_API_KEY h.
Proof.
  induction 1 as [|a s s' _ [IHref IHkey] Hstep].
  - unfold mount, mountEffect, capable. by destruct (_ || _).
  - apply step_recognitionRef in Hstep as [-> ->]. done.
Qed.

Lemma recognition_object_is_fixed_at_mount_awaiting :
  Reachable chrome awaiting_summary /\
  recognitionRef awaiting_summary =
    (if capable chrome then
       Some {| continuous := true; interimResults := true;
               lang := js "en-US" |}
     else None) /\
  apiKey awaiting_summary = VITE_OPENAI_API_KEY chrome.
Proof.
  split; [apply Reachable_awaiting_summary|].
  apply (recognition_object_is_fixed_at_mount chrome awaiting_summary).
  apply Reachable_awaiting_summary.
Defined.

(** X10: on a host without recognition no text ever arrives, so in every
    reachable state the transcript and the summary are empty, the
    summarizing flag is off and no request is in flight: the component never
    contacts the summarization service. *)
Theorem no_request_without_recognition (h : Host) (s : App) :
  capable h = false ->
  Reachable h s ->
  transcript s = [] /\ finalTranscript s = [] /\ summary s = [] /\
  isSummarizing s = false /\ inflight s = [].
Proof.
  intros Hcap Hreach.
  assert (Href : forall s0, Reachable h s0 -> recognitionRef s0 = None).
  { intros s0 H0.
    destruct (recognition_object_is_fixed_at_mount h s0 H0) as [-> _].
    by rewrite Hcap. }
  induction Hreach as [|a s s' Hs IH Hstep].
  - unfold mount, mountEffect. fold (capable h). by rewrite Hcap.
  - destruct IH as (Ht & Hf & Hsum & Hflag & Hreq).
    specialize (Href s Hs). apply step_inv in Hstep.
    destruct a; try (subst s'; done).
    + subst s'. unfold toggleListening. rewrite Href.
      by destruct (isListening s).
    + subst s'. unfold click_summarize, summarize_disabled, summarizeTranscript.
      by rewrite Hflag, Ht.
    + destruct Hstep as [[? Hsome] _]. by rewrite Href in Hsome.
    + destruct Hstep as [[? Hsome] _]. by rewrite Href in Hsome.
    + destruct Hstep as [[? Hsome] _]. by rewrite Href in Hsome.
    + destruct Hstep as [[? Hsome] _]. by rewrite Hreq in Hsome.
Qed.

Lemma Reachable_phantom_listening : Reachable no_recognition phantom_listening.
Proof.
  apply (reach_step no_recognition (ClickToggle Started)
           (mount no_recognition)); [|reflexivity].
  apply reach_mount.
Defined.

Lemma no_request_without_recognition_after_summarize :
  capable no_recognition = false /\
  Reachable no_recognition (click_summarize phantom_listening) /\
  transcript (click_summarize phantom_listening) = [] /\
  finalTranscript (click_summarize phantom_listening) = [] /\
  summary (click_summarize phantom_listening) = [] /\
  isSummarizing (click_summarize phantom_listening) = false /\
  inflight (click_summarize phantom_listening) = [].
Proof.
  split; [reflexivity|].
  assert (Hreach :
    Reachable no_recognition (click_summarize phantom_listening)).
  { apply (reach_step no_recognition ClickSummarize phantom_listening);
      [apply Reachable_phantom_listening|reflexivity]. }
  split; [exact Hreach|].
  apply (no_request_without_recognition no_recognition
           (click_summarize phantom_listening)); [reflexivity|exact Hreach].
Defined.

(** X11: on a host without recognition, once the listening flag is set no
    run of the component turns it off again: there is no recognizer to end
    or fail, and a further toggle calls [stop()] on nothing. *)
Theorem phantom_listening_never_ends
    (h : Host) (s s' : App) (trace : list action) :
  capable h = false ->
  Reachable h s ->
  isListening s = true ->
  run trace s = Some s' ->
  isListening s' = true /\
  toggleLabel (render s') = js "Stop Listening".
Proof.
  intros Hcap Hreach Hon Hrun.
  assert (Hboth : recognitionRef s' = None /\ isListening s' = true).
  { assert (Href : recognitionRef s = None).
    { destruct (recognition_object_is_fixed_at_mount h s Hreach) as [-> _].
      by rewrite Hcap. }
    clear Hreach. revert s Hon Href Hrun.
    induction trace as [|a trace IH]; intros s Hon Href Hrun; simpl in Hrun.
    - by injection Hrun as <-.
    - destruct (step a s) as [s1|] eqn:Hstep; [|discriminate].
      destruct (listening_stuck_without_capability a s s1 Href Hon Hstep).
      by apply (IH s1). }
  destruct Hboth as [_ Hflag]. split; [done|].
  unfold render. simpl. by rewrite Hflag.
Qed.

Lemma phantom_listening_never_ends_by_toggling :
  capable no_recognition = false /\
  Reachable no_recognition phantom_listening /\
  isListening phantom_listening = true /\
  run [ClickToggle Started; ClickClear; ClickToggle Started] phantom_listening
    = Some (toggleListening Started (clearTranscript
              (toggleListening Started phantom_listening))) /\
  isListening
    (toggleListening Started (clearTranscript
       (toggleListening Started phantom_listening))) = true /\
  toggleLabel
    (render (toggleListening Started (clearTranscript
               (toggleListening Started phantom_listening)))) =
    js "Stop Listening".
Proof.
  split; [reflexivity|]. split; [apply Reachable_phantom_listening|].
  split; [reflexivity|]. split; [reflexivity|].
  apply (phantom_listening_never_ends no_recognition phantom_listening
           (toggleListening Started (clearTranscript
              (toggleListening Started phantom_listening)))
           [ClickToggle Started; ClickClear; ClickToggle Started]);
    [reflexivity|apply Reachable_phantom_listening|reflexivity|reflexivity].
Defined.

(** X12: in every reachable state the displayed transcript is either empty
    (nothing recognized yet, or cleared) or begins with the whole
    accumulated final text; the rest is the interim text of the last
    update. *)
Theorem transcript_starts_with_final_text (h : Host) (s : App) :
  Reachable h s ->
  transcript s = [] \/ finalTranscript s `prefix_of` transcript s.
Proof.
  induction 1 as [|a s s' _ IH Hstep].
  - left. unfold mount, mountEffect. by destruct (_ || _).
  - apply step_inv in Hstep. destruct a; try (subst s'; done).
    + subst s'. unfold toggleListening.
      by destruct (isListening s), (recognitionRef s), host.
    + subst s'. by left.
    + subst s'.
      by destruct (click_summarize_cases s) as [-> | [-> | (_ & _ & ->)]].
    + destruct Hstep as [_ ->]. right. rewrite onresult_eq. simpl.
      by apply prefix_app_r.
    + by destruct Hstep as [_ ->].
    + by destruct Hstep as [_ ->].
    + destruct Hstep as [_ ->]. unfold summarizeTranscript_resume.
      by destruct (first_choice_text o).
Qed.

Lemma transcript_starts_with_final_text_awaiting :
  Reachable chrome awaiting_summary /\
  (transcript awaiting_summary = [] \/
   finalTranscript awaiting_summary `prefix_of` transcript awaiting_summary).
Proof.
  split; [apply Reachable_awaiting_summary|].
  apply (transcript_starts_with_final_text chrome awaiting_summary).
  apply Reachable_awaiting_summary.
Defined.

(** ** The summary *)

Lemma read_summary_trimmed (data : value) (t : jsstring) :
  read_summary data = Normal t -> exists text, t = trim text.
Proof.
  unfold read_summary. destruct (get data (js "choices")) as [v1|]; [|done].
  simpl. destruct (get0 v1) as [v2|]; [|done].
  simpl. destruct (get v2 (js "text")) as [v3|]; [|done].
  simpl. destruct v3; try done. intros [= <-]. eauto.
Qed.

Lemma first_choice_text_trimmed (o : Axios.settlement) (t : jsstring) :
  first_choice_text o = Normal t -> exists text, t = trim text.
Proof.
  unfold first_choice_text. destruct (Axios.await_data o) as [data|]; [|done].
  apply read_summary_trimmed.
Qed.

(** X13: in every reachable state the summary neither starts nor ends with
    white space: it is empty or the trimmed text of some response. *)
Theorem summary_is_never_padded (h : Host) (s : App) :
  Reachable h s ->
  starts_black (summary s) /\ ends_black (summary s).
Proof.
  induction 1 as [|a s s' _ IH Hstep].
  - unfold mount, mountEffect. by destruct (_ || _).
  - apply step_inv in Hstep. destruct a; try (subst s'; done).
    + subst s'. unfold toggleListening.
      by destruct (isListening s), (recognitionRef s), host.
    + subst s'.
      by destruct (click_summarize_cases s) as [-> | [-> | (_ & _ & ->)]].
    + destruct Hstep as [_ ->]. by rewrite onresult_eq.
    + by destruct Hstep as [_ ->].
    + by destruct Hstep as [_ ->].
    + destruct Hstep as [_ ->]. unfold summarizeTranscript_resume.
      destruct (first_choice_text o) as [t|] eqn:Ho; [|done].
      apply first_choice_text_trimmed in Ho as [text ->]. simpl.
      destruct (trim_trimmed_of text) as (_ & Hstart & Hend). done.
Qed.

Lemma summary_is_never_padded_after_response :
  Reachable chrome
    (summarizeTranscript_resume (Axios.Response 200 short_summary_body)
       (setInflight (delete 0 (inflight awaiting_summary)) awaiting_summary)) /\
  summary
    (summarizeTranscript_resume (Axios.Response 200 short_summary_body)
       (setInflight (delete 0 (inflight awaiting_summary)) awaiting_summary)) =
    js "A short summary." /\
  starts_black
    (summary
       (summarizeTranscript_resume (Axios.Response 200 short_summary_body)
          (setInflight (delete 0 (inflight awaiting_summary))
             awaiting_summary))) /\
  ends_black
    (summary
       (summarizeTranscript_resume (Axios.Response 200 short_summary_body)
          (setInflight (delete 0 (inflight awaiting_summary))
             awaiting_summary))).
Proof.
  assert (Hreach : Reachable chrome
    (summarizeTranscript_resume (Axios.Response 200 short_summary_body)
       (setInflight (delete 0 (inflight awaiting_summary)) awaiting_summary))).
  { apply (reach_step chrome
             (RequestSettled 0 (Axios.Response 200 short_summary_body))
             awaiting_summary);
      [apply Reachable_awaiting_summary|reflexivity]. }
  split; [exact Hreach|]. split; [by vm_compute|].
  apply (summary_is_never_padded chrome
           (summarizeTranscript_resume (Axios.Response 200 short_summary_body)
              (setInflight (delete 0 (inflight awaiting_summary))
                 awaiting_summary))).
  exact Hreach.
Defined.

Lemma trimStart_white (t : jsstring) : white t -> trimStart t = [].
Proof. induction 1 as [|c t Hc _ IH]; [done|]. simpl. by rewrite Hc. Qed.

(** X14: a 2xx response whose first choice is only white space counts as a
    success: the summary becomes the empty string, so no summary paragraph
    is rendered, and the error slot is left as it was. *)
Theorem blank_completion_shows_nothing
    (s : App) (status : nat) (fields choice : list (jsstring * value))
    (others : list value) (text : jsstring) :
  Axios.validateStatus status = true ->
  own_property (js "choices") fields =
    Some (VArray (VObject choice :: others)) ->
  own_property (js "text") choice = Some (VString text) ->
  white text ->
  summary
    (summarizeTranscript_resume (Axios.Response status (VObject fields)) s)
    = [] /\
  summaryParagraph
    (render
       (summarizeTranscript_resume (Axios.Response status (VObject fields)) s))
    = None /\
  error
    (summarizeTranscript_resume (Axios.Response status (VObject fields)) s)
    = error s.
Proof.
  intros Hstatus Hchoices Htext Hwhite.
  unfold render, summarizeTranscript_resume, first_choice_text, read_summary.
  simpl. rewrite Hstatus. simpl. rewrite Hchoices. simpl.
  rewrite Htext. simpl. unfold trim. rewrite (trimStart_white text Hwhite).
  done.
Qed.

Lemma blank_completion_shows_nothing_replaces_old :
  Axios.validateStatus 200 = true /\
  white [32; 10; 9]%N /\
  summary
    (summarizeTranscript_resume (Axios.Response 200 blank_summary_body)
       (setSummary (js "old") awaiting_summary)) = [] /\
  summaryParagraph
    (render
       (summarizeTranscript_resume (Axios.Response 200 blank_summary_body)
          (setSummary (js "old") awaiting_summary))) = None /\
  error
    (summarizeTranscript_resume (Axios.Response 200 blank_summary_body)
       (setSummary (js "old") awaiting_summary)) =
    error (setSummary (js "old") awaiting_summary).
Proof.
  split; [reflexivity|].
  assert (Hwhite : white [32; 10; 9]%N) by (repeat constructor).
  split; [exact Hwhite|].
  apply (blank_completion_shows_nothing
           (setSummary (js "old") awaiting_summary) 200
           [(js "choices",
             VArray [VObject [(js "text", VString [32; 10; 9]%N)]])]
           [(js "text", VString [32; 10; 9]%N)] [] [32; 10; 9]%N);
    [reflexivity|reflexivity|reflexivity|exact Hwhite].
Defined.

(** ** The error slot *)

Lemma known_message_truthy (m : jsstring) : known_message m -> truthy m = true.
Proof. intros [-> | [-> | [-> | [-> | [code ->]]]]]; reflexivity. Qed.

(** X15: in every reachable state the error slot is empty or holds one of
    the five message forms of the handlers, none of which is the empty
    string; so the error paragraph is rendered exactly when the slot is not
    null, and it shows the slot's text. *)
Theorem error_slot_holds_a_known_message (h : Host) (s : App) :
  Reachable h s ->
  (forall m, error s = Some m -> known_message m) /\
  errorParagraph (render s) = error s.
Proof.
  intros Hreach.
  assert (Hknown : forall m, error s = Some m -> known_message m).
  { induction Hreach as [|a s s' _ IH Hstep].
    - unfold mount, mountEffect. destruct (_ || _); simpl; [done|].
      intros m [= <-]. by left.
    - apply step_inv in Hstep. destruct a; try (subst s'; done).
      + subst s'. unfold toggleListening.
        destruct (isListening s), (recognitionRef s), host; simpl; try done.
        intros m [= <-]. right. by left.
      + subst s'.
        destruct (click_summarize_cases s) as [-> | [-> | (_ & _ & ->)]];
          simpl; try done.
        intros m [= <-]. right. right. by left.
      + destruct Hstep as [_ ->]. by rewrite onresult_eq.
      + destruct Hstep as [_ ->]. simpl. intros m [= <-].
        do 4 right. by exists code.
      + by destruct Hstep as [_ ->].
      + destruct Hstep as [_ ->]. unfold summarizeTranscript_resume.
        destruct (first_choice_text o); simpl; [done|].
        intros m [= <-]. do 3 right. by left. }
  split; [done|]. unfold render. simpl.
  destruct (error s) as [m|]; [|done].
  by rewrite (known_message_truthy m (Hknown m eq_refl)).
Qed.

Lemma error_slot_holds_a_known_message_failed_start :
  Reachable chrome failed_start /\
  (forall m, error failed_start = Some m -> known_message m) /\
  errorParagraph (render failed_start) = error failed_start.
Proof.
  assert (Hreach : Reachable chrome failed_start).
  { apply (reach_step chrome (ClickToggle StartThrows) (mount chrome));
      [apply reach_mount|reflexivity]. }
  split; [exact Hreach|].
  apply (error_slot_holds_a_known_message chrome failed_start). exact Hreach.
Defined.

(** X16: what an update displays depends on the state only through the
    accumulated final text: interim text displayed before, a cleared
    display or any other slot makes no difference, so stale interim text
    never persists. *)
Theorem interim_text_never_persists
    (event : SpeechRecognitionEvent) (s1 s2 : App) :
  finalTranscript s1 = finalTranscript s2 ->
  transcript (onresult event s1) = transcript (onresult event s2) /\
  finalTranscript (onresult event s1) = finalTranscript (onresult event s2).
Proof. intros Heq. rewrite !onresult_eq. simpl. by rewrite Heq. Qed.

Lemma interim_text_never_persists_after_world :
  finalTranscript (onresult world_event (mount chrome)) =
    finalTranscript (mount chrome) /\
  transcript (onresult world_event (mount chrome)) = js " world" /\
  transcript (onresult hello_event (onresult world_event (mount chrome))) =
    transcript (onresult hello_event (mount chrome)) /\
  finalTranscript (onresult hello_event (onresult world_event (mount chrome)))
    = finalTranscript (onresult hello_event (mount chrome)).
Proof.
  split; [by vm_compute|]. split; [by vm_compute|].
  apply (interim_text_never_persists hello_event
           (onresult world_event (mount chrome)) (mount chrome)).
  by vm_compute.
Defined.

(** ** A summarization from click to settlement *)

Lemma Reachable_idle h s :
  Reachable h s -> isSummarizing s = false -> inflight s = [].
Proof.
  intros Hreach Hoff. apply Reachable_in_step in Hreach.
  unfold in_step in Hreach. by rewrite Hoff in Hreach.
Qed.

(** X17: from a reachable state with a non-empty transcript and no request
    pending, a click on summarize followed by the settlement of its request
    ends in the state before the click with either the summary replaced and
    the error slot emptied, or the failure message set and the cause on the
    console; the flag is off again and nothing is in flight.  Only request 0
    can settle. *)
Theorem summarize_click_to_settlement
    (h : Host) (s : App) (o : Axios.settlement) :
  Reachable h s ->
  transcript s <> [] ->
  isSummarizing s = false ->
  run [ClickSummarize; RequestSettled 0 o] s =
    Some (match first_choice_text o with
          | Normal text => setSummary text (setError None s)
          | Throw cause =>
              consoleError (js "Error summarizing transcript:") cause
                (setError (Some summary_failed_message) s)
          end) /\
  (forall k, run [ClickSummarize; RequestSettled (S k) o] s = None).
Proof.
  intros Hreach Hfull Hoff.
  pose proof (Reachable_idle h s Hreach Hoff) as Hnone.
  simpl. unfold click_summarize, summarize_disabled, summarizeTranscript.
  rewrite Hoff. destruct (transcript s) as [|c t] eqn:Ht; [done|].
  simpl. rewrite Hnone. simpl. split; [|done].
  unfold summarizeTranscript_resume.
  destruct s; simpl in *. subst.
  by destruct (first_choice_text o).
Qed.

Lemma summarize_click_to_settlement_hello :
  Reachable chrome (onresult hello_event (mount chrome)) /\
  transcript (onresult hello_event (mount chrome)) <> [] /\
  isSummarizing (onresult hello_event (mount chrome)) = false /\
  run [ClickSummarize; RequestSettled 0 (Axios.Response 500 VNull)]
    (onresult hello_event (mount chrome)) =
    Some (match first_choice_text (Axios.Response 500 VNull) with
          | Normal text =>
              setSummary text
                (setError None (onresult hello_event (mount chrome)))
          | Throw cause =>
              consoleError (js "Error summarizing transcript:") cause
                (setError (Some summary_failed_message)
                   (onresult hello_event (mount chrome)))
          end) /\
  (forall k,
     run [ClickSummarize; RequestSettled (S k) (Axios.Response 500 VNull)]
       (onresult hello_event (mount chrome)) = None).
Proof.
  assert (Hreach : Reachable chrome (onresult hello_event (mount chrome))).
  { apply (reach_step chrome (RecognitionResult hello_event) (mount chrome));
      [apply reach_mount|reflexivity]. }
  split; [exact Hreach|]. split; [by vm_compute|]. split; [reflexivity|].
  apply (summarize_click_to_settlement chrome
           (onresult hello_event (mount chrome)) (Axios.Response 500 VNull));
    [exact Hreach|by vm_compute|reflexivity].
Defined.

(** X18: the clear action does not cancel a pending request: clicking
    summarize, then clear, then receiving a successful response ends with an
    empty transcript and the summary of the text that was cleared; the
    request that was sent carries the prompt built from that text. *)
Theorem clear_does_not_cancel_the_request
    (h : Host) (s : App) (o : Axios.settlement) (text : jsstring) :
  Reachable h s ->
  transcript s <> [] ->
  isSummarizing s = false ->
  first_choice_text o = Normal text ->
  inflight (clearTranscript (click_summarize s)) = [summary_request s] /\
  run [ClickSummarize; ClickClear; RequestSettled 0 o] s =
    Some (setSummary text (setTranscript [] (setError None s))).
Proof.
  intros Hreach Hfull Hoff Ho.
  pose proof (Reachable_idle h s Hreach Hoff) as Hnone.
  simpl. unfold click_summarize, summarize_disabled, summarizeTranscript.
  rewrite Hoff. destruct (transcript s) as [|c t] eqn:Ht; [done|].
  simpl. rewrite Hnone. simpl. split; [done|].
  unfold summarizeTranscript_resume. rewrite Ho.
  destruct s; simpl in *. by subst.
Qed.

Lemma clear_does_not_cancel_the_request_hello :
  Reachable chrome (onresult hello_event (mount chrome)) /\
  transcript (onresult hello_event (mount chrome)) <> [] /\
  isSummarizing (onresult hello_event (mount chrome)) = false /\
  first_choice_text (Axios.Response 200 short_summary_body) =
    Normal (js "A short summary.") /\
  inflight
    (clearTranscript (click_summarize (onresult hello_event (mount chrome)))) =
    [summary_request (onresult hello_event (mount chrome))] /\
  run [ClickSummarize; ClickClear;
       RequestSettled 0 (Axios.Response 200 short_summary_body)]
    (onresult hello_event (mount chrome)) =
    Some (setSummary (js "A short summary.")
            (setTranscript []
               (setError None (onresult hello_event (mount chrome))))).
Proof.
  assert (Hreach : Reachable chrome (onresult hello_event (mount chrome))).
  { apply (reach_step chrome (RecognitionResult hello_event) (mount chrome));
      [apply reach_mount|reflexivity]. }
  split; [exact Hreach|]. split; [by vm_compute|]. split; [reflexivity|].
  split; [by vm_compute|].
  apply (clear_does_not_cancel_the_request chrome
           (onresult hello_event (mount chrome))
           (Axios.Response 200 short_summary_body) (js "A short summary."));
    [exact Hreach|by vm_compute|reflexivity|by vm_compute].
Defined.

(** ** The request *)

(** X19: the component does not check the credential: on a host whose
    configuration lacks the key, a summarize click with a non-empty
    transcript still posts one request, to the completions URL, with the
    header [Authorization: Bearer undefined]. *)
Theorem missing_key_is_sent_as_undefined (h : Host) (s : App) :
  VITE_OPENAI_API_KEY h = None ->
  Reachable h s ->
  transcript s <> [] ->
  isSummarizing s = false ->
  exists r,
    inflight (click_summarize s) = [r] /\
    Axios.url r =
      js "https://api.openai.com/v1/engines/text-davinci-002/completions" /\
    Axios.headers r =
      [ (js "Authorization", js "Bearer undefined");
        (js "Content-Type", js "application/json") ].
Proof.
  intros Hkey Hreach Hfull Hoff.
  pose proof (Reachable_idle h s Hreach Hoff) as Hnone.
  destruct (recognition_object_is_fixed_at_mount h s Hreach) as [_ Hapi].
  exists (summary_request s).
  unfold click_summarize, summarize_disabled, summarizeTranscript.
  rewrite Hoff. destruct (transcript s) as [|c t] eqn:Ht; [done|].
  simpl. rewrite Hnone, Hapi, Hkey. done.
Qed.

Lemma missing_key_is_sent_as_undefined_hello :
  VITE_OPENAI_API_KEY no_key = None /\
  Reachable no_key (onresult hello_event (mount no_key)) /\
  transcript (onresult hello_event (mount no_key)) <> [] /\
  isSummarizing (onresult hello_event (mount no_key)) = false /\
  exists r,
    inflight (click_summarize (onresult hello_event (mount no_key))) = [r] /\
    Axios.url r =
      js "https://api.openai.com/v1/engines/text-davinci-002/completions" /\
    Axios.headers r =
      [ (js "Authorization", js "Bearer undefined");
        (js "Content-Type", js "application/json") ].
Proof.
  assert (Hreach : Reachable no_key (onresult hello_event (mount no_key))).
  { apply (reach_step no_key (RecognitionResult hello_event) (mount no_key));
      [apply reach_mount|reflexivity]. }
  split; [reflexivity|]. split; [exact Hreach|]. split; [by vm_compute|].
  split; [reflexivity|].
  apply (missing_key_is_sent_as_undefined no_key
           (onresult hello_event (mount no_key)));
    [reflexivity|exact Hreach|by vm_compute|reflexivity].
Defined.

(** X20: the request a summarize click posts carries, as its [prompt], the
    transcript verbatim between the fixed heading and the fixed trailer,
    beside the fixed completion parameters; the transcript can be read back
    from it: requests with equal bodies come from equal transcripts. *)
Theorem prompt_determines_transcript (s : App) :
  transcript s <> [] ->
  isSummarizing s = false ->
  inflight (click_summarize s) = inflight s ++ [summary_request s] /\
  Axios.data (summary_request s) =
    VObject
      [ (js "prompt",
         VString
           (js "Please summarize the following text:" ++ [10; 10]%N ++
            transcript s ++ [10; 10]%N ++ js "Summary:"));
        (js "max_tokens", VNumber 100);
        (js "n", VNumber 1);
        (js "stop", VNull);
        (js "temperature", VNumber (1 # 2)) ] /\
  (forall s',
     Axios.data (summary_request s') = Axios.data (summary_request s) ->
     transcript s' = transcript s).
Proof.
  intros Hfull Hoff. split; [|split; [done|]].
  - unfold click_summarize, summarize_disabled, summarizeTranscript.
    rewrite Hoff. by destruct (transcript s).
  - intros s' Heq. unfold summary_request in Heq.
    cbn [Axios.data] in Heq. injection Heq as Heq.
    by apply app_inv_tail in Heq.
Qed.

Lemma prompt_determines_transcript_hello :
  transcript (onresult hello_event (mount chrome)) <> [] /\
  isSummarizing (onresult hello_event (mount chrome)) = false /\
  inflight (click_summarize (onresult hello_event (mount chrome))) =
    inflight (onresult hello_event (mount chrome)) ++
    [summary_request (onresult hello_event (mount chrome))] /\
  Axios.data (summary_request (onresult hello_event (mount chrome))) =
    VObject
      [ (js "prompt",
         VString
           (js "Please summarize the following text:" ++ [10; 10]%N ++
            transcript (onresult hello_event (mount chrome)) ++
            [10; 10]%N ++ js "Summary:"));
        (js "max_tokens", VNumber 100);
        (js "n", VNumber 1);
        (js "stop", VNull);
        (js "temperature", VNumber (1 # 2)) ] /\
  (forall s',
     Axios.data (summary_request s') =
       Axios.data (summary_request (onresult hello_event (mount chrome))) ->
     transcript s' = transcript (onresult hello_event (mount chrome))).
Proof.
  split; [by vm_compute|]. split; [reflexivity|].
  apply (prompt_determines_transcript (onresult hello_event (mount chrome)));
    [by vm_compute|reflexivity].
Defined.

(** ** The clipboard *)

Lemma step_clipboard a s s' :
  step a s = Some s' -> a <> ClickCopy -> clipboard s' = clipboard s.
Proof.
  intros Hstep Hother. apply step_inv in Hstep.
  destruct a; try (subst s'; done).
  - subst s'. unfold toggleListening.
    by destruct (isListening s), (recognitionRef s), host.
  - subst s'.
    by destruct (click_summarize_cases s) as [-> | [-> | (_ & _ & ->)]].
  - destruct Hstep as [_ ->]. by rewrite onresult_eq.
  - by destruct Hstep as [_ ->].
  - by destruct Hstep as [_ ->].
  - destruct Hstep as [_ ->]. unfold summarizeTranscript_resume.
    by destruct (first_choice_text o).
Qed.

(** X21: only the copy action writes the clipboard, and it writes the
    transcript as displayed at that moment: after any run, the clipboard
    holds the transcript of the state in which copy was last clicked,
    whatever was recognized, cleared or summarized since. *)
Theorem clipboard_holds_last_copied_transcript
    (before after : list action) (s0 s : App) :
  ClickCopy ∉ after ->
  run (before ++ (ClickCopy :: after)) s0 = Some s ->
  exists s1, run before s0 = Some s1 /\ clipboard s = Some (transcript s1).
Proof.
  intros Hnone Hrun. rewrite run_app in Hrun.
  destruct (run before s0) as [s1|]; [|done]. exists s1. split; [done|].
  simpl in Hrun.
  assert (Hkeep : forall s2, run after s2 = Some s ->
                             clipboard s = clipboard s2).
  { clear Hrun. induction after as [|a after IH]; intros s2 Hrun;
      simpl in Hrun.
    - by injection Hrun as <-.
    - destruct (step a s2) as [s3|] eqn:Hstep; [|discriminate].
      apply not_elem_of_cons in Hnone as [Ha Hafter].
      rewrite (IH Hafter s3 Hrun). by apply (step_clipboard a s2). }
  by rewrite (Hkeep _ Hrun).
Qed.

Lemma clipboard_holds_last_copied_transcript_after_clear :
  (ClickCopy ∉ [ClickClear; RecognitionResult world_event]) /\
  run ([RecognitionResult hello_event] ++
       (ClickCopy :: [ClickClear; RecognitionResult world_event]))
    (mount chrome) =
    Some (onresult world_event
            (clearTranscript
               (copyToClipboard (onresult hello_event (mount chrome))))) /\
  exists s1,
    run [RecognitionResult hello_event] (mount chrome) = Some s1 /\
    clipboard
      (onresult world_event
         (clearTranscript
            (copyToClipboard (onresult hello_event (mount chrome))))) =
      Some (transcript s1).
Proof.
  assert (Hnone : ClickCopy ∉ [ClickClear; RecognitionResult world_event]).
  { intros Hin. apply elem_of_cons in Hin as [Hin | Hin]; [discriminate|].
    apply elem_of_cons in Hin as [Hin | Hin]; [discriminate|].
    by apply elem_of_nil in Hin. }
  split; [exact Hnone|]. split; [reflexivity|].
  apply (clipboard_holds_last_copied_transcript
           [RecognitionResult hello_event]
           [ClickClear; RecognitionResult world_event] (mount chrome));
    [exact Hnone|reflexivity].
Defined.

(** ** The transcript after an update, in any run *)

Lemma run_finalTranscript trace s0 s :
  run trace s0 = Some s ->
  finalTranscript s =
  finalTranscript s0 ++
  finalized_text (concat (map segments (delivered trace))).
Proof.
  revert s0. induction trace as [|a trace IH]; intros s0 Hrun; simpl in Hrun.
  - injection Hrun as <-. by rewrite app_nil_r.
  - destruct (step a s0) as [s1|] eqn:Hstep; [|discriminate].
    rewrite (IH s1 Hrun), (step_finalTranscript a s0 s1 Hstep).
    rewrite <- app_assoc, <- finalized_text_app, <- concat_app, <- map_app.
    do 4 f_equal. unfold delivered. simpl. by destruct a.
Qed.

Lemma run_recognitionRef trace s0 s :
  run trace s0 = Some s -> recognitionRef s = recognitionRef s0.
Proof.
  revert s0. induction trace as [|a trace IH]; intros s0 Hrun; simpl in Hrun.
  - by injection Hrun as <-.
  - destruct (step a s0) as [s1|] eqn:Hstep; [|discriminate].
    rewrite (IH s1 Hrun). by apply step_recognitionRef in Hstep as [-> _].
Qed.

Lemma delivered_snoc trace event :
  delivered (trace ++ [RecognitionResult event]) = delivered trace ++ [event].
Proof. unfold delivered. by rewrite omap_app. Qed.

(** C1: on a host that has the capability, after any run of the component
    (clicks, recognition callbacks and settlements in any order, listening
    or not) a recognition update is accepted, and the transcript it displays
    is the final segments of all the updates delivered so far, each followed
    by one space, followed by the interim segments of this last update only.
    The same holds for a bare sequence of updates; a final "hello" followed
    by an interim " world" displays "hello  world", also after listening was
    started. *)
Theorem transcript_is_finals_then_latest_interim
    (h : Host) (trace : list action) (event : SpeechRecognitionEvent)
    (s0 : App) :
  hasSpeechRecognition h || hasWebkitSpeechRecognition h = true ->
  run trace (mount h) = Some s0 ->
  run (trace ++ [RecognitionResult event]) (mount h) =
    Some (onresult event s0) /\
  transcript (onresult event s0) =
    displayed_transcript (delivered (trace ++ [RecognitionResult event])) /\
  (forall events,
     exists s,
       run (map RecognitionResult events) (mount h) = Some s /\
       transcript s = displayed_transcript events) /\
  transcript (deliver [hello_event; world_event] (mount h)) =
    js "hello  world" /\
  (exists s,
     run [ClickToggle Started; RecognitionResult hello_event;
          RecognitionResult world_event] (mount h) = Some s /\
     isListening s = true /\
     transcript s = js "hello  world").
Proof.
  intros Hcap Hrun.
  destruct (mount_capable h Hcap) as ([r Href] & Hfinal & Hshown).
  split; [|split; [|split; [|split]]].
  - rewrite run_app, Hrun. simpl.
    by rewrite (run_recognitionRef trace (mount h) s0 Hrun), Href.
  - rewrite onresult_eq. simpl.
    rewrite (run_finalTranscript trace (mount h) s0 Hrun), Hfinal.
    rewrite delivered_snoc. unfold displayed_transcript.
    rewrite last_snoc, map_app, concat_app, finalized_text_app. simpl.
    by rewrite !app_nil_r.
  - intros events. exists (deliver events (mount h)).
    split; [apply deliver_run; by exists r|by apply deliver_displayed].
  - rewrite deliver_displayed by done. by vm_compute.
  - exists (onresult world_event
              (onresult hello_event (toggleListening Started (mount h)))).
    unfold mount, mountEffect. rewrite Hcap. split; [done|].
    split; [done|]. rewrite !onresult_eq. by vm_compute.
Qed.

Lemma transcript_is_finals_then_latest_interim_chrome :
  hasSpeechRecognition chrome || hasWebkitSpeechRecognition chrome = true /\
  run [ClickToggle Started; RecognitionResult hello_event; ClickClear]
    (mount chrome) =
    Some (clearTranscript
            (onresult hello_event (toggleListening Started (mount chrome)))) /\
  isListening
    (clearTranscript
       (onresult hello_event (toggleListening Started (mount chrome)))) =
    true /\
  run ([ClickToggle Started; RecognitionResult hello_event; ClickClear] ++
       [RecognitionResult world_event_indexed]) (mount chrome) =
    Some (onresult world_event_indexed
            (clearTranscript
               (onresult hello_event
                  (toggleListening Started (mount chrome))))) /\
  transcript
    (onresult world_event_indexed
       (clearTranscript
          (onresult hello_event (toggleListening Started (mount chrome))))) =
    displayed_transcript
      (delivered
         ([ClickToggle Started; RecognitionResult hello_event; ClickClear] ++
          [RecognitionResult world_event_indexed])) /\
  (forall events,
     exists s,
       run (map RecognitionResult events) (mount chrome) = Some s /\
       transcript s = displayed_transcript events) /\
  transcript (deliver [hello_event; world_event] (mount chrome)) =
    js "hello  world" /\
  (exists s,
     run [ClickToggle Started; RecognitionResult hello_event;
          RecognitionResult world_event] (mount chrome) = Some s /\
     isListening s = true /\
     transcript s = js "hello  world").
Proof.
  split; [reflexivity|]. split; [reflexivity|]. split; [reflexivity|].
  apply (transcript_is_finals_then_latest_interim chrome
           [ClickToggle Started; RecognitionResult hello_event; ClickClear]
           world_event_indexed
           (clearTranscript
              (onresult hello_event (toggleListening Started (mount chrome)))));
    reflexivity.
Defined.
